(** * Seoul crime / population reconciliation pipeline

    A shallow embedding of the district resolver, the geocode client, the
    table reconciler and the rate normaliser of
    [mlservice/app/seoul_crime] ([seoul_method.py], [seoul_service.py],
    [save/kakao_map_singleton.py], the one definition of the geocode
    client, which [seoul_method.py] imports as
    [app.seoul_crime.kakao_map_singleton]).

    Conventions of the embedding:
    - a Python [str] is the list of its Unicode code points ([pystr]);
      the notation [u "..."] decodes a UTF-8 literal, so that the Korean
      constants of the source can be written as they are;
    - a dataframe is the list of its rows, in index order;
    - a Python [float] is a finite rational or [NaN] ([fl]); the IEEE
      rounding of binary64 arithmetic is not modelled;
    - exceptions are values of a result type, and the external services
      (HTTP, environment) are inputs of the functions that use them. *)

From Stdlib Require Import ZArith NArith QArith Qround List Bool Lia.
From Stdlib Require Import Sorting.Permutation Sorting.Sorted.
From Stdlib Require String Ascii DecimalString DecimalN DecimalPos.
Import String.StringSyntax.
Open Scope string_scope.
Open Scope list_scope.
Import ListNotations.

Set Implicit Arguments.

(* ================================================================== *)
(** ** Python strings *)
(* ================================================================== *)

Module PyStr.

(** A string is its sequence of code points. *)
Definition pystr := list N.

(** UTF-8 decoding of a literal (well-formed input assumed; a stray
    byte is kept as it is). *)
Fixpoint utf8_decode (bs : list N) : pystr :=
  match bs with
  | [] => []
  | b0 :: r0 =>
      if (b0 <? 192)%N then b0 :: utf8_decode r0
      else if (b0 <? 224)%N then
        match r0 with
        | b1 :: r1 =>
            (N.land b0 31 * 64 + N.land b1 63)%N :: utf8_decode r1
        | [] => [b0]
        end
      else if (b0 <? 240)%N then
        match r0 with
        | b1 :: b2 :: r2 =>
            (N.land b0 15 * 4096 + N.land b1 63 * 64 + N.land b2 63)%N
              :: utf8_decode r2
        | _ => b0 :: r0
        end
      else
        match r0 with
        | b1 :: b2 :: b3 :: r3 =>
            (N.land b0 7 * 262144 + N.land b1 63 * 4096
             + N.land b2 63 * 64 + N.land b3 63)%N :: utf8_decode r3
        | _ => b0 :: r0
        end
  end.

Definition u (s : String.string) : pystr :=
  utf8_decode (map Ascii.N_of_ascii (String.list_ascii_of_string s)).


(** [a == b] on strings. *)
Fixpoint eqb (a b : pystr) : bool :=
  match a, b with
  | [], [] => true
  | x :: a', y :: b' => (x =? y)%N && eqb a' b'
  | _, _ => false
  end.

(** [s.startswith(p)] *)
Fixpoint startswith (p s : pystr) : bool :=
  match p, s with
  | [], _ => true
  | x :: p', y :: s' => (x =? y)%N && startswith p' s'
  | _ :: _, [] => false
  end.

(** [s.endswith(p)] *)
Definition endswith (p s : pystr) : bool := startswith (rev p) (rev s).

(** [p in s]: substring test. *)
Fixpoint contains (p s : pystr) : bool :=
  startswith p s ||
  match s with
  | [] => false
  | _ :: s' => contains p s'
  end.

(** [s.replace(c, new)] for a pattern [c] of one character, the only
    form the source uses. *)
Definition replace (c : N) (new : pystr) (s : pystr) : pystr :=
  flat_map (fun x => if (x =? c)%N then new else [x]) s.

(** [str.isspace] on one character. *)
Definition isspace (c : N) : bool :=
  ((9 <=? c) && (c <=? 13) || (28 <=? c) && (c <=? 32)
   || (c =? 133) || (c =? 160) || (c =? 5760)
   || (8192 <=? c) && (c <=? 8202)
   || (c =? 8232) || (c =? 8233) || (c =? 8239) || (c =? 8287)
   || (c =? 12288))%N.

Fixpoint lstrip_by (f : N -> bool) (s : pystr) : pystr :=
  match s with
  | [] => []
  | c :: s' => if f c then lstrip_by f s' else s
  end.

Definition strip_by (f : N -> bool) (s : pystr) : pystr :=
  rev (lstrip_by f (rev (lstrip_by f s))).

(** [s.strip()] *)
Definition strip : pystr -> pystr := strip_by isspace.

(** [s.strip(c)] for one character [c]. *)
Definition strip_char (c : N) : pystr -> pystr :=
  strip_by (fun x => (x =? c)%N).

(** [a < b]: lexicographic order on code points. *)
Fixpoint ltb (a b : pystr) : bool :=
  match a, b with
  | _, [] => false
  | [], _ :: _ => true
  | x :: a', y :: b' =>
      if (x <? y)%N then true
      else if (x =? y)%N then ltb a' b' else false
  end.

Definition leb (a b : pystr) : bool := negb (ltb b a).

(** [x in l] for a list or set of strings. *)
Definition mem (x : pystr) (l : list pystr) : bool := existsb (eqb x) l.

(** [s.split()]: the maximal runs of characters that are not
    whitespace. *)
Fixpoint split (s : pystr) : list pystr :=
  match s with
  | [] => []
  | c :: s' =>
      if isspace c then split s'
      else
        match s' with
        | c' :: _ =>
            if isspace c' then [c] :: split s'
            else
              match split s' with
              | w :: ws => (c :: w) :: ws
              | [] => [[c]]
              end
        | [] => [[c]]
        end
  end.

(** [s[-1] == c], for the parts [split] gives, which are never
    empty. *)
Definition last_is (c : N) (s : pystr) : bool :=
  match rev s with
  | x :: _ => (x =? c)%N
  | [] => false
  end.

End PyStr.

Import PyStr.

(** The characters and words the source names. *)
Definition ch_seo : N := 49436.     (* 서 *)
Definition ch_gu : N := 44396.      (* 구 *)
Definition ch_si : N := 49884.      (* 시 *)
Definition ch_do : N := 46020.      (* 도 *)
Definition ch_comma : N := 44.
Definition ch_dquote : N := 34.
Definition ch_squote : N := 39.

Definition ch_plus : N := 43.
Definition ch_minus : N := 45.
Definition ch_dot : N := 46.
Definition ch_underscore : N := 95.

(* ================================================================== *)
(** ** Python numbers: floats, [int(s)], [float(s)], [f"{n:,}"] *)
(* ================================================================== *)

(** A float is a finite value or not a number.  Arithmetic on finite
    values is exact; a division by zero (an infinity or a NaN in IEEE
    arithmetic) gives [NaN], the one non-finite value of the model. *)
Inductive fl : Type :=
| Fin (q : Q)
| NaN.

Definition Qltb (a b : Q) : bool :=
  (Qnum a * QDen b <? Qnum b * QDen a)%Z.

(** [a < b] and [a > b]; a comparison with NaN is false. *)
Definition fl_ltb (a b : fl) : bool :=
  match a, b with
  | Fin x, Fin y => Qltb x y
  | _, _ => false
  end.

Definition fl_gtb (a b : fl) : bool := fl_ltb b a.

(** [a != b]; true when either side is NaN. *)
Definition fl_neb (a b : fl) : bool :=
  match a, b with
  | Fin x, Fin y => negb (Qeq_bool x y)
  | _, _ => true
  end.

Definition fl_div (a b : fl) : fl :=
  match a, b with
  | Fin x, Fin y => if Qeq_bool y 0 then NaN else Fin (x / y)%Q
  | _, _ => NaN
  end.

Definition fl_mul (a b : fl) : fl :=
  match a, b with
  | Fin x, Fin y => Fin (x * y)%Q
  | _, _ => NaN
  end.

(** [numpy.rint]: the nearest integer, ties to the even one. *)
Definition rint (q : Q) : Z :=
  let f := Qfloor q in
  match Qcompare (q - inject_Z f) (1 # 2) with
  | Lt => f
  | Gt => (f + 1)%Z
  | Eq => if Z.even f then f else (f + 1)%Z
  end.

Definition pow10 (d : nat) : positive := Pos.pow 10 (Pos.of_nat d).

(** [Series.round(d)] for [d >= 1]: scale by [10^d], [rint], scale
    back. *)
Definition fl_round (d : nat) (a : fl) : fl :=
  match a with
  | Fin q => Fin (rint (q * inject_Z (Zpos (pow10 d)))%Q # pow10 d)
  | NaN => NaN
  end.

(** [pd.isna] on a float. *)
Definition fl_isna (a : fl) : bool :=
  match a with NaN => true | Fin _ => false end.

(** Equality of floats as numbers. *)
Definition fl_eq (a b : fl) : Prop :=
  match a, b with
  | Fin x, Fin y => (x == y)%Q
  | NaN, NaN => True
  | _, _ => False
  end.

(** [a + b] *)
Definition fl_add (a b : fl) : fl :=
  match a, b with
  | Fin x, Fin y => Fin (x + y)%Q
  | _, _ => NaN
  end.

(** [a <= b] on floats that are numbers. *)
Definition fl_le (a b : fl) : Prop :=
  match a, b with
  | Fin x, Fin y => (x <= y)%Q
  | _, _ => False
  end.


Definition is_digit (c : N) : bool := ((48 <=? c) && (c <=? 57))%N.

(** A run of decimal digits in which single underscores may separate
    digits: its value and its number of digits. [prev] tells whether the
    previous character was a digit. *)
Fixpoint digitpart (acc : N) (n : nat) (prev : bool) (s : pystr)
  : option (N * nat) :=
  match s with
  | [] => if prev then Some (acc, n) else None
  | c :: s' =>
      if is_digit c then digitpart (acc * 10 + (c - 48))%N (S n) true s'
      else if (c =? ch_underscore)%N && prev then digitpart acc n false s'
      else None
  end.

(** [int(s)] in base ten: surrounding whitespace, an optional sign,
    ASCII digits.  [None] stands for [ValueError]. *)
Definition py_int (s : pystr) : option Z :=
  match strip s with
  | [] => None
  | c :: r =>
      if (c =? ch_minus)%N then
        option_map (fun v => (- Z.of_N (fst v))%Z) (digitpart 0 0 false r)
      else if (c =? ch_plus)%N then
        option_map (fun v => Z.of_N (fst v)) (digitpart 0 0 false r)
      else option_map (fun v => Z.of_N (fst v)) (digitpart 0 0 false (c :: r))
  end.

(** Splits at the first character satisfying [f]. *)
Fixpoint split_at (f : N -> bool) (s : pystr) : pystr * option pystr :=
  match s with
  | [] => ([], None)
  | c :: s' =>
      if f c then ([], Some s')
      else let '(a, b) := split_at f s' in (c :: a, b)
  end.

Definition signed (s : pystr) : bool * pystr :=
  match s with
  | c :: r =>
      if (c =? ch_minus)%N then (true, r)
      else if (c =? ch_plus)%N then (false, r)
      else (false, s)
  | [] => (false, [])
  end.

(** The digits of a mantissa: [digits], [digits.], [.digits] or
    [digits.digits], as numerator and number of fraction digits. *)
Definition mantissa (s : pystr) : option (N * nat) :=
  match split_at (fun c => (c =? ch_dot)%N) s with
  | (ip, None) => option_map (fun v => (fst v, O)) (digitpart 0 0 false ip)
  | (ip, Some fp) =>
      match ip, fp with
      | [], [] => None
      | _, [] => option_map (fun v => (fst v, O)) (digitpart 0 0 false ip)
      | [], _ => digitpart 0 0 false fp
      | _, _ =>
          match digitpart 0 0 false ip with
          | Some (i, _) => digitpart i 0 false fp
          | None => None
          end
      end
  end.

Definition Qpow10 (e : Z) : Q := Qpower (10 # 1) e.

Definition is_nonfinite_word (s : pystr) : bool :=
  let low := map (fun c => if ((65 <=? c) && (c <=? 90))%N
                           then (c + 32)%N else c) s in
  eqb low (u "nan") || eqb low (u "inf") || eqb low (u "infinity").

(** [float(s)]: surrounding whitespace, an optional sign, a decimal
    mantissa and an optional exponent; the words nan, inf and infinity
    give the non-finite value.  [None] stands for [ValueError]. *)
Definition py_float (s : pystr) : option fl :=
  let '(neg, body) := signed (strip s) in
  if is_nonfinite_word body then Some NaN
  else
    let '(m, ex) := split_at (fun c => (c =? 101) || (c =? 69))%N body in
    match mantissa m with
    | None => None
    | Some (num, fd) =>
        let e :=
          match ex with
          | None => Some 0%Z
          | Some es =>
              let '(eneg, ed) := signed es in
              option_map
                (fun v => if eneg then (- Z.of_N (fst v))%Z
                          else Z.of_N (fst v))
                (digitpart 0 0 false ed)
          end in
        match e with
        | None => None
        | Some e =>
            let q := (inject_Z (Z.of_N num) * Qpow10 (e - Z.of_nat fd))%Q in
            Some (Fin (if neg then (- q)%Q else q))
        end
    end.

(** The decimal digits of a natural number, as characters. *)
Definition digits_of_N (n : N) : pystr :=
  u (DecimalString.NilZero.string_of_uint (N.to_uint n)).

(** Inserts a comma after every third character of a reversed digit
    string that has more characters to come. *)
Fixpoint group3 (l : pystr) : pystr :=
  match l with
  | a :: b :: c :: ((_ :: _) as r) => a :: b :: c :: ch_comma :: group3 r
  | _ => l
  end.

(** [str(n)] for an integer. *)
Definition str_of_Z (z : Z) : pystr :=
  match z with
  | Zneg p => ch_minus :: digits_of_N (Npos p)
  | _ => digits_of_N (Z.to_N z)
  end.

(** [f"{n:,}"]: decimal digits in groups of three. *)
Definition format_commas (z : Z) : pystr :=
  let body := rev (group3 (rev (digits_of_N (Z.to_N (Z.abs z))))) in
  if (z <? 0)%Z then ch_minus :: body else body.

(** The characters of a decimal numeral, and the number they are read
    as, digit by digit from an accumulator; they relate what
    [format_commas] writes to what [int] and [float] read. *)
Fixpoint uint_chars (d : Decimal.uint) : pystr :=
  match d with
  | Decimal.Nil => []
  | Decimal.D0 d => 48%N :: uint_chars d
  | Decimal.D1 d => 49%N :: uint_chars d
  | Decimal.D2 d => 50%N :: uint_chars d
  | Decimal.D3 d => 51%N :: uint_chars d
  | Decimal.D4 d => 52%N :: uint_chars d
  | Decimal.D5 d => 53%N :: uint_chars d
  | Decimal.D6 d => 54%N :: uint_chars d
  | Decimal.D7 d => 55%N :: uint_chars d
  | Decimal.D8 d => 56%N :: uint_chars d
  | Decimal.D9 d => 57%N :: uint_chars d
  end.

Fixpoint uint_value (acc : N) (d : Decimal.uint) : N :=
  match d with
  | Decimal.Nil => acc
  | Decimal.D0 d => uint_value (acc * 10 + 0) d
  | Decimal.D1 d => uint_value (acc * 10 + 1) d
  | Decimal.D2 d => uint_value (acc * 10 + 2) d
  | Decimal.D3 d => uint_value (acc * 10 + 3) d
  | Decimal.D4 d => uint_value (acc * 10 + 4) d
  | Decimal.D5 d => uint_value (acc * 10 + 5) d
  | Decimal.D6 d => uint_value (acc * 10 + 6) d
  | Decimal.D7 d => uint_value (acc * 10 + 7) d
  | Decimal.D8 d => uint_value (acc * 10 + 8) d
  | Decimal.D9 d => uint_value (acc * 10 + 9) d
  end%N.



(* ================================================================== *)
(** ** Results, exceptions, JSON values *)
(* ================================================================== *)

(** The exception classes the code raises or catches.  A
    [RequestException] is what [requests] raises (connection failure,
    [HTTPError] of [raise_for_status], undecodable body); the others are
    plain [Exception]s. *)
Inductive exn : Type :=
| RequestException (msg : pystr)
| ValueError (msg : pystr)
| AttributeError (msg : pystr)
| TypeError (msg : pystr)
| KeyError (msg : pystr)
| FileNotFoundError (msg : pystr).

Definition is_request_exception (e : exn) : bool :=
  match e with RequestException _ => true | _ => false end.

Inductive outcome (A : Type) : Type :=
| Return (a : A)
| Raise (e : exn).

Arguments Return {A} a.
Arguments Raise {A} e.

Definition bind_outcome {A B} (m : outcome A) (k : A -> outcome B)
  : outcome B :=
  match m with
  | Return a => k a
  | Raise e => Raise e
  end.

Notation "'let?' x ':=' m 'in' k" := (bind_outcome m (fun x => k))
  (at level 10, x name, m at level 100, k at level 200).

(** Decoded JSON, which is also the shape of the dictionaries and lists
    the geocoder hands back.  A dictionary is an association list in
    insertion order. *)
#[local] Unset Elimination Schemes.
Inductive json : Type :=
| JNull
| JBool (b : bool)
| JNum (x : fl)
| JStr (s : pystr)
| JList (l : list json)
| JDict (d : list (pystr * json)).
#[local] Set Elimination Schemes.

(** [d.get(k)] on the entries of a dictionary. *)
Fixpoint dict_lookup {V} (k : pystr) (d : list (pystr * V)) : option V :=
  match d with
  | [] => None
  | (k', v) :: d' => if eqb k k' then Some v else dict_lookup k d'
  end.

(** [d.get(k, default)] *)
Definition dict_get {V} (k : pystr) (default : V) (d : list (pystr * V)) : V :=
  match dict_lookup k d with
  | Some v => v
  | None => default
  end.

(** [d[k] = v]: an existing key keeps its place. *)
Fixpoint dict_set {V} (k : pystr) (v : V) (d : list (pystr * V))
  : list (pystr * V) :=
  match d with
  | [] => [(k, v)]
  | (k', v') :: d' =>
      if eqb k k' then (k', v) :: d' else (k', v') :: dict_set k v d'
  end.

Definition dict_keys {V} (d : list (pystr * V)) : list pystr := map fst d.

(** Truth value of a JSON value in a condition. *)
Definition truthy (j : json) : bool :=
  match j with
  | JNull => false
  | JBool b => b
  | JNum (Fin q) => negb (Qeq_bool q 0)
  | JNum NaN => true
  | JStr s => negb (eqb s [])
  | JList l => match l with [] => false | _ => true end
  | JDict d => match d with [] => false | _ => true end
  end.

(** [float(v)] on a JSON value. *)
Definition float_of_json (j : json) : outcome fl :=
  match j with
  | JNum x => Return x
  | JBool b => Return (Fin (if b then 1 else 0))
  | JStr s =>
      match py_float s with
      | Some x => Return x
      | None => Raise (ValueError (u "could not convert string to float"))
      end
  | _ => Raise (TypeError (u "float() argument must be a string or a real number"))
  end.

(** A loop that builds a list and stops at the first exception. *)
Fixpoint map_outcome {A B} (f : A -> outcome B) (l : list A)
  : outcome (list B) :=
  match l with
  | [] => Return []
  | x :: t =>
      let? y := f x in
      let? ys := map_outcome f t in
      Return (y :: ys)
  end.

(** [j[k]] for a string key [k]. *)
Definition json_index (k : pystr) (j : json) : outcome json :=
  match j with
  | JDict d =>
      match dict_lookup k d with
      | Some v => Return v
      | None => Raise (KeyError k)
      end
  | _ => Raise (TypeError (u "object is not subscriptable"))
  end.

(* ================================================================== *)
(** ** [kakao_map_singleton.py]: the geocode client *)
(* ================================================================== *)

Module KakaoMapSingleton.

(** What [requests.get] gives: an exception of the transport, or a
    response with its status code and its body ([None] when the body is
    not JSON, in which case [response.json()] raises the library's
    [JSONDecodeError], a [RequestException]). *)
Inductive http_result : Type :=
| Transport_error (msg : pystr)
| Response (status_code : Z) (body : option json).

(** The instance: attributes are absent until [__new__] sets them. *)
Record instance : Type := mk_instance {
  oid : nat;
  _api_key : option pystr;
  _base_url : option pystr
}.

(** The process: the two class variables, the environment, and two
    counters of the embedding (objects allocated, calls of
    [_retrieve_api_key]). *)
Record process : Type := mk_process {
  _instance : option instance;
  _env_loaded : bool;
  environ : list (pystr * pystr);
  allocated : nat;
  key_reads : nat
}.

Definition initial_process (env : list (pystr * pystr)) : process :=
  mk_process None false env 0 0.

(** [load_dotenv(path)]: variables of the file (given as its dictionary
    of values) that the environment does not define yet are added. *)
Fixpoint load_dotenv (file : list (pystr * pystr)) (env : list (pystr * pystr))
  : list (pystr * pystr) :=
  match file with
  | [] => env
  | (k, v) :: file' =>
      load_dotenv file'
        (match dict_lookup k env with
         | Some _ => env
         | None => env ++ [(k, v)]
         end)
  end.

Definition KAKAO_REST_API_KEY : pystr := u "KAKAO_REST_API_KEY".
Definition KAKAO_MAP_API_KEY : pystr := u "KAKAO_MAP_API_KEY".

(** [os.getenv(a) or os.getenv(b)] *)
Definition getenv_or (a b : pystr) (env : list (pystr * pystr))
  : option pystr :=
  match dict_lookup a env with
  | Some ((_ :: _) as v) => Some v
  | _ => dict_lookup b env
  end.

Definition missing_key_message : pystr :=
  u "KAKAO_REST_API_KEY 또는 KAKAO_MAP_API_KEY 환경변수가 설정되지 않았습니다.".

(** The environment once the [.env] file, if one is found on the way
    up from the module's directory, has been loaded. *)
Definition loaded (dotenv : option (list (pystr * pystr)))
  (env : list (pystr * pystr)) : list (pystr * pystr) :=
  match dotenv with
  | Some file => load_dotenv file env
  | None => env
  end.

(** [_retrieve_api_key]; [dotenv] is the first [.env] file found, if
    any. *)
Definition _retrieve_api_key (dotenv : option (list (pystr * pystr)))
  (p : process) : outcome pystr * process :=
  let env :=
    if _env_loaded p then environ p else loaded dotenv (environ p) in
  let p' := mk_process (_instance p) true env (allocated p)
              (S (key_reads p)) in
  match getenv_or KAKAO_REST_API_KEY KAKAO_MAP_API_KEY env with
  | Some ((_ :: _) as key) => (Return key, p')
  | _ => (Raise (ValueError missing_key_message), p')
  end.

Definition base_url : pystr := u "https://dapi.kakao.com/v2/local".

(** [KakaoMapSingleton()], that is [__new__].  The class variable is
    assigned before the key is retrieved. *)
Definition __new__ (dotenv : option (list (pystr * pystr))) (p : process)
  : outcome instance * process :=
  match _instance p with
  | None =>
      let obj := mk_instance (allocated p) None None in
      let p1 := mk_process (Some obj) (_env_loaded p) (environ p)
                  (S (allocated p)) (key_reads p) in
      match _retrieve_api_key dotenv p1 with
      | (Raise e, p2) => (Raise e, p2)
      | (Return key, p2) =>
          let obj' := mk_instance (oid obj) (Some key) (Some base_url) in
          (Return obj',
           mk_process (Some obj') (_env_loaded p2) (environ p2)
             (allocated p2) (key_reads p2))
      end
  | Some obj => (Return obj, p)
  end.

(** [get_api_key] *)
Definition get_api_key (self : instance) : outcome pystr :=
  match _api_key self with
  | Some k => Return k
  | None => Raise (AttributeError (u "_api_key"))
  end.

(** Several constructions in a row, each with the [.env] file it would
    find. *)
Fixpoint constructions (dotenvs : list (option (list (pystr * pystr))))
  (p : process) : list (outcome instance) * process :=
  match dotenvs with
  | [] => ([], p)
  | d :: ds =>
      let '(r, p1) := __new__ d p in
      let '(rs, p2) := constructions ds p1 in
      (r :: rs, p2)
  end.

Definition forbidden_message (error_msg : pystr) : pystr :=
  u "카카오 맵 API 접근 거부 (403): " ++ error_msg
  ++ u ". 카카오 개발자 콘솔에서 '로컬' API가 활성화되어 있는지 확인하세요.".

(** [response.json()] *)
Definition response_json (body : option json) : outcome json :=
  match body with
  | Some j => Return j
  | None => Raise (RequestException (u "JSONDecodeError"))
  end.

(** [j.get(k, default)] on a decoded value; only a dictionary has
    [get]. *)
Definition json_get (k : pystr) (default : json) (j : json) : outcome json :=
  match j with
  | JDict d => Return (dict_get k default d)
  | _ => Raise (AttributeError (u "get"))
  end.

(** The string a message value shows as inside an f-string; only the
    string case is spelled out. *)
Definition show_json (j : json) : pystr :=
  match j with
  | JStr s => s
  | _ => []
  end.

(** [a or b] *)
Definition json_or (a b : json) : json := if truthy a then a else b.

(** The first document, reshaped: the returned dictionary has the two
    keys [formatted_address] and [geometry]. *)
Definition reshape (doc : json) : outcome json :=
  let? a1 := json_get (u "address_name") (JStr []) doc in
  let? a2 := json_get (u "road_address_name") (JStr []) doc in
  let address_name := json_or a1 a2 in
  let? y := json_get (u "y") (JNum (Fin 0)) doc in
  let? lat := float_of_json y in
  let? x := json_get (u "x") (JNum (Fin 0)) doc in
  let? lng := float_of_json x in
  Return
    (JDict
       [(u "formatted_address", address_name);
        (u "geometry",
         JDict [(u "location",
                 JDict [(u "lat", JNum lat); (u "lng", JNum lng)])])]).

(** The body of the [try] block of [geocode], from the response on. *)
Definition geocode_try (resp : http_result) : outcome (list json) :=
  match resp with
  | Transport_error msg => Raise (RequestException msg)
  | Response status_code body =>
      if (status_code =? 403)%Z then
        let? j := response_json body in
        let? error_msg := json_get (u "message") (JStr (u "Forbidden")) j in
        Raise (ValueError (forbidden_message (show_json error_msg)))
      else if ((400 <=? status_code) && (status_code <? 600))%Z then
        Raise (RequestException (u "HTTPError"))
      else
        let? result := response_json body in
        let? documents := json_get (u "documents") JNull result in
        if truthy documents then
          match documents with
          | JList (doc :: _) =>
              let? r := reshape doc in Return [r]
          | JStr _ => Raise (AttributeError (u "get"))
          | JDict _ => Raise (KeyError (u "0"))
          | _ => Raise (TypeError (u "object has no len()"))
          end
        else Return []
  end.

(** The two handlers of [geocode]: a [RequestException] is raised again,
    any other exception gives the empty list. *)
Definition geocode_handlers (r : outcome (list json)) : outcome (list json) :=
  match r with
  | Return l => Return l
  | Raise e => if is_request_exception e then Raise e else Return []
  end.

(** [geocode(address)]; [http] stands for the remote service, as a
    function of the query.  The header is built from [_api_key] before
    the [try] block is entered. *)
Definition geocode (self : instance) (http : pystr -> http_result)
  (address : pystr) : outcome (list json) :=
  match _base_url self, _api_key self with
  | Some _, Some _ => geocode_handlers (geocode_try (http address))
  | None, _ => Raise (AttributeError (u "_base_url"))
  | _, None => Raise (AttributeError (u "_api_key"))
  end.

(** The result [geocode] builds from a document, in full. *)
Definition geocoded (fa : json) (lat lng : fl) : json :=
  JDict
    [(u "formatted_address", fa);
     (u "geometry",
      JDict [(u "location",
              JDict [(u "lat", JNum lat); (u "lng", JNum lng)])])].

(** One entry of the list [_parse_address_components] returns. *)
Definition address_component (part : pystr) (types : list pystr) : json :=
  JDict [(u "long_name", JStr part);
         (u "short_name", JStr part);
         (u "types", JList (map JStr types))].

(** The loop of [_parse_address_components] over the parts of the
    address. *)
Fixpoint components_of (parts : list pystr) : list json :=
  match parts with
  | [] => []
  | part :: rest =>
      if endswith [ch_gu] part then
        address_component part
          [u "sublocality_level_1"; u "administrative_area_level_2"]
          :: components_of rest
      else if endswith [ch_si] part || endswith [ch_do] part then
        address_component part [u "administrative_area_level_1"]
          :: components_of rest
      else components_of rest
  end.

(** [_parse_address_components(doc)] *)
Definition _parse_address_components (doc : json) : outcome (list json) :=
  let? address_name := json_get (u "address_name") (JStr []) doc in
  if truthy address_name then
    match address_name with
    | JStr s => Return (components_of (split s))
    | _ => Raise (AttributeError (u "split"))
    end
  else Return [].

End KakaoMapSingleton.

(* ================================================================== *)
(** ** [seoul_method.py]: the district resolver *)
(* ================================================================== *)

Module SeoulMethod.

Import KakaoMapSingleton.

(** The object and what it reaches: the geocode client, the remote
    service behind it, and the 기관명 column of [cctv.csv] ([None] when
    the file does not exist; a cell of the column is a string or NaN). *)
Record method : Type := mk_method {
  kakao_map : instance;
  http : pystr -> http_result;
  cctv_csv : option (list (option pystr))
}.

Definition is_hangul (c : N) : bool := ((44032 <=? c) && (c <=? 55203))%N.

(** [re.search(r'([가-힣]+구)', s)], group 1.  [match_tail] continues a
    match after its first character: the greedy [+] first tries to take
    one more character, and gives it back to the literal 구 when the rest
    fails. *)
Fixpoint match_tail (s : pystr) : option pystr :=
  match s with
  | [] => None
  | c :: s' =>
      if is_hangul c then
        match match_tail s' with
        | Some r => Some (c :: r)
        | None => if (c =? ch_gu)%N then Some [c] else None
        end
      else None
  end.

Definition match_here (s : pystr) : option pystr :=
  match s with
  | c :: s' => if is_hangul c then option_map (cons c) (match_tail s') else None
  | [] => None
  end.

Fixpoint re_search_gu (s : pystr) : option pystr :=
  match s with
  | [] => None
  | _ :: s' =>
      match match_here s with
      | Some m => Some m
      | None => re_search_gu s'
      end
  end.

(** [x in c] for a string [x] and a JSON container [c]. *)
Definition json_in (x : pystr) (c : json) : outcome bool :=
  match c with
  | JList l =>
      Return (existsb (fun j => match j with JStr s => eqb x s | _ => false end) l)
  | JStr s => Return (contains x s)
  | JDict d => Return (mem x (dict_keys d))
  | _ => Raise (TypeError (u "argument is not iterable"))
  end.

(** What a [for] loop ranges over. *)
Definition iterate (j : json) : outcome (list json) :=
  match j with
  | JList l => Return l
  | JStr s => Return (map (fun c => JStr [c]) s)
  | JDict d => Return (map (fun kv => JStr (fst kv)) d)
  | _ => Raise (TypeError (u "object is not iterable"))
  end.

(** The loop over [address_components]: the first component of type
    [sublocality_level_1] or [administrative_area_level_2] whose
    [long_name] has the character 구.  [long_name] is returned when it is
    a string; another container holding 구 is not a district name and is
    reported as a type error. *)
Fixpoint search_components (comps : list json) : outcome (option pystr) :=
  match comps with
  | [] => Return None
  | component :: rest =>
      let? types := json_get (u "types") (JList []) component in
      let? t1 := json_in (u "sublocality_level_1") types in
      let? t2 := (if t1 then Return true
                  else json_in (u "administrative_area_level_2") types) in
      if t2 then
        let? long_name := json_get (u "long_name") (JStr []) component in
        let? has_gu := json_in [ch_gu] long_name in
        match long_name with
        | JStr s =>
            if has_gu then Return (Some s)
            else if endswith [ch_gu] s then Return (Some s)
            else search_components rest
        | _ =>
            if has_gu then Raise (TypeError (u "long_name is not a string"))
            else Raise (AttributeError (u "endswith"))
        end
      else search_components rest
  end.

(** The lookups on a geocode result, inside the [try] block. *)
Definition district_from_result (geocode_result : list json)
  : outcome (option pystr) :=
  match geocode_result with
  | [] => Return None
  | first :: _ =>
      let? address_components :=
        json_get (u "address_components") (JList []) first in
      let? comps := iterate address_components in
      let? found := search_components comps in
      match found with
      | Some d => Return (Some d)
      | None =>
          let? formatted_address :=
            json_get (u "formatted_address") (JStr []) first in
          match formatted_address with
          | JStr s => Return (re_search_gu s)
          | _ => Raise (TypeError (u "expected string or bytes-like object"))
          end
      end
  end.

(** The rewrite as the specification words it: the name with its final
    character, the 서 of a station, replaced by 구. *)
Definition naive_rewrite (station_name : pystr) : pystr :=
  removelast station_name ++ [ch_gu].

(** The rule both failure paths end with. *)
Definition basic_rule (station_name : pystr) : pystr :=
  if endswith [ch_seo] station_name
  then replace ch_seo [ch_gu] station_name
  else station_name.

(** [_get_district_from_kakao_maps]: the district and the queries sent
    to [geocode]. *)
Definition _get_district_from_kakao_maps (self : method)
  (station_name : pystr) : pystr * list pystr :=
  let query := station_name ++ u " 서울" in
  let tried :=
    let? geocode_result := geocode (kakao_map self) (http self) query in
    district_from_result geocode_result in
  (match tried with
   | Return (Some district) => district
   | Return None => basic_rule station_name
   | Raise _ => basic_rule station_name
   end, [query]).

(** [d in set(column)] *)
Definition in_column (d : pystr) (col : list (option pystr)) : bool :=
  existsb (fun c => match c with Some s => eqb d s | None => false end) col.

(** [station_to_district]: the district, or the exception of a missing
    [cctv.csv], and the queries sent to [geocode]. *)
Definition station_to_district (self : method) (station_name : pystr)
  : outcome pystr * list pystr :=
  if endswith [ch_seo] station_name then
    let district := replace ch_seo [ch_gu] station_name in
    match cctv_csv self with
    | None => (Raise (FileNotFoundError (u "cctv.csv")), [])
    | Some valid_districts =>
        if in_column district valid_districts then (Return district, [])
        else
          let '(d, calls) := _get_district_from_kakao_maps self station_name in
          (Return d, calls)
    end
  else
    let '(d, calls) := _get_district_from_kakao_maps self station_name in
    (Return d, calls).

(** [SeoulMethod()]: [__init__] builds the geocode client.
    [SeoulService()] does nothing else that can fail, and the router
    module builds its [SeoulService] when it is imported. *)
Definition __init__ (dotenv : option (list (pystr * pystr)))
  (http : pystr -> http_result) (cctv : option (list (option pystr)))
  (p : process) : outcome method * process :=
  let '(r, p') := __new__ dotenv p in
  (match r with
   | Return i => Return (mk_method i http cctv)
   | Raise e => Raise e
   end, p').

(** A resolver whose geocoder answers every query with one document,
    at the address of the 방배 police station. *)
Definition bangbae_method : method :=
  mk_method (mk_instance 0 (Some (u "key")) (Some base_url))
    (fun _ =>
       Response 200
         (Some (JDict
            [(u "documents",
              JList [JDict [(u "address_name",
                             JStr (u "서울특별시 강남구 방배동"));
                            (u "x", JStr (u "126.99"));
                            (u "y", JStr (u "37.48"))]])])))
    (Some [Some (u "강남구")]).

End SeoulMethod.

(* ================================================================== *)
(** ** [seoul_service.py]: reconciliation and rates *)
(* ================================================================== *)

Module SeoulService.

(** A cell of a numeric column, as pandas reads or produces it: missing,
    an integer, a finite float, or a string. *)
Inductive cell : Type :=
| CNaN
| CInt (z : Z)
| CFloat (q : Q)
| CStr (s : pystr).

(** [pd.notna] *)
Definition notna (c : cell) : bool :=
  match c with CNaN => false | _ => true end.

(** [int(str(val).replace(',', '').strip())], [None] for [ValueError].
    The text of an integer is read back as that integer; the text of a
    float always has a point or an exponent, which [int] refuses. *)
Definition int_of_cell (val : cell) : option Z :=
  match val with
  | CStr s => py_int (strip (replace ch_comma [] s))
  | CInt z => Some z
  | CFloat _ => None
  | CNaN => None
  end.

(** [str_to_float]: the three nested copies in the source are the same
    function.  The text of a number is read back as that number. *)
Definition str_to_float (val : cell) : fl :=
  match val with
  | CNaN => Fin 0
  | CInt z => Fin (inject_Z z)
  | CFloat q => Fin q
  | CStr s =>
      match py_float (strip (replace ch_comma [] s)) with
      | Some x => x
      | None => Fin 0
      end
  end.

(** *** [_merge_duplicate_gu] *)

(** A row of the crime table: 관서명 (a string or NaN), the numeric
    columns that are present (in the order of [numeric_columns]) and
    자치구, which [preprocess] has filled with strings. *)
Record crime_row : Type := mk_crime_row {
  station : option pystr;
  counts : list cell;
  gu : pystr
}.

(** [sum_string_numbers] *)
Definition add_cell (total : Z) (val : cell) : Z :=
  if notna val then
    match int_of_cell val with
    | Some n => (total + n)%Z
    | None => total
    end
  else total.

Definition sum_string_numbers (series : list cell) : pystr :=
  format_commas (fold_left add_cell series 0%Z).

(** [first_value] *)
Definition first_value (series : list (option pystr)) : option pystr :=
  match series with
  | v :: _ => v
  | [] => Some []
  end.

(** [Series.unique()]: the distinct values in order of first
    appearance. *)
Fixpoint unique (l : list pystr) : list pystr :=
  match l with
  | [] => []
  | x :: t => x :: filter (fun y => negb (eqb x y)) (unique t)
  end.

(** The group keys of [groupby]: distinct and sorted. *)
Fixpoint insert_key (x : pystr) (l : list pystr) : list pystr :=
  match l with
  | [] => [x]
  | y :: t => if leb x y then x :: l else y :: insert_key x t
  end.

Definition sort_keys (l : list pystr) : list pystr :=
  fold_right insert_key [] l.

Definition group_keys (df : list crime_row) : list pystr :=
  sort_keys (unique (map gu df)).

Definition group_of (key : pystr) (df : list crime_row) : list crime_row :=
  filter (fun r => eqb (gu r) key) df.

(** Column [j] of the numeric columns. *)
Definition column (j : nat) (rows : list crime_row) : list cell :=
  map (fun r => nth j (counts r) CNaN) rows.

(** [df.groupby('자치구', as_index=False).agg(agg_dict)] with the
    columns put back in order; [ncols] is the number of numeric columns
    the frame has. *)
Definition _merge_duplicate_gu (ncols : nat) (df : list crime_row)
  : list crime_row :=
  map (fun key =>
         let grp := group_of key df in
         mk_crime_row
           (first_value (map station grp))
           (map (fun j => CStr (sum_string_numbers (column j grp)))
                (seq 0 ncols))
           key)
      (group_keys df).

(** What a cell is worth in a sum: the integer it reads as, zero when
    it is missing or does not read as an integer. *)
Definition contribution (val : cell) : Z :=
  match val with
  | CNaN => 0%Z
  | _ => match int_of_cell val with Some n => n | None => 0%Z end
  end.

Definition Zsum (l : list Z) : Z := fold_right Z.add 0%Z l.

(** *** [preprocess]: names, the 종로구 correction, the mapping, the
    merge *)

Record pop_row : Type := mk_pop_row {
  p_gu : pystr;
  p_pop : fl
}.

(** [normalize_gu_name] on a cell that is a string or NaN. *)
Definition normalize_gu_name (name : option pystr) : pystr :=
  match name with
  | None => []
  | Some s =>
      strip (strip_char ch_squote (strip_char ch_dquote (strip s)))
  end.

Definition jongno : pystr := u "종로구".
Definition jongno_population : fl := Fin 162820.

Definition rename_rows (old new : pystr) (pop : list pop_row)
  : list pop_row :=
  map (fun r => if eqb (p_gu r) old then mk_pop_row new (p_pop r) else r) pop.

Definition set_population (name : pystr) (v : fl) (pop : list pop_row)
  : list pop_row :=
  map (fun r => if eqb (p_gu r) name then mk_pop_row (p_gu r) v else r) pop.

(** Lines 205-222: a variant spelling of 종로구 in the population
    table. *)
Definition find_jongno (pop_clean : list pop_row) : list pop_row :=
  let pop_gu_list := map p_gu pop_clean in
  if mem jongno pop_gu_list then pop_clean
  else
    match filter (contains (u "종로")) pop_gu_list with
    | v :: _ => rename_rows v jongno pop_clean
    | [] => pop_clean
    end.

(** Lines 224-239: the population of 종로구 is set to 162,820. *)
Definition correct_jongno (crime_gu_list : list pystr)
  (pop_clean : list pop_row) : list pop_row :=
  if mem jongno crime_gu_list then
    if negb (mem jongno (map p_gu pop_clean)) then
      pop_clean ++ [mk_pop_row jongno jongno_population]
    else
      match filter (fun r => eqb (p_gu r) jongno) pop_clean with
      | r :: _ =>
          if fl_neb (p_pop r) jongno_population
          then set_population jongno jongno_population pop_clean
          else pop_clean
      | [] => pop_clean
      end
  else pop_clean.

(** The test of the list comprehension of lines 246-248. *)
Definition similar (crime_gu gu : pystr) : bool :=
  contains crime_gu gu || contains gu crime_gu
  || eqb (replace ch_gu [] crime_gu) (replace ch_gu [] gu).

Definition needs_mapping (pop_names : list pystr) (crime_gu : pystr) : bool :=
  negb (eqb crime_gu []) && negb (eqb crime_gu jongno)
  && negb (mem crime_gu pop_names).

(** Lines 242-251: [gu_mapping]. *)
Definition gu_mapping_step (pop_names : list pystr)
  (gu_mapping : list (pystr * pystr)) (crime_gu : pystr)
  : list (pystr * pystr) :=
  if needs_mapping pop_names crime_gu then
    match filter (similar crime_gu) pop_names with
    | s :: _ => dict_set crime_gu s gu_mapping
    | [] => gu_mapping
    end
  else gu_mapping.

(** The population name a crime district is mapped to, if any: the
    first similar one, for a district that is not empty, not 종로구 and
    not a population name itself. *)
Definition mapped (pop_names : list pystr) (crime_gu : pystr)
  : option pystr :=
  if needs_mapping pop_names crime_gu
  then hd_error (filter (similar crime_gu) pop_names)
  else None.

Definition build_gu_mapping (crime_gu_list pop_names : list pystr)
  : list (pystr * pystr) :=
  fold_left (gu_mapping_step pop_names) crime_gu_list [].

(** Lines 254-258: [reverse_mapping] and its application. *)
Definition reverse_mapping (gu_mapping : list (pystr * pystr))
  : list (pystr * pystr) :=
  fold_left (fun d kv => dict_set (snd kv) (fst kv) d) gu_mapping [].

Definition apply_mapping (gu_mapping : list (pystr * pystr))
  (pop_clean : list pop_row) : list pop_row :=
  match gu_mapping with
  | [] => pop_clean
  | _ =>
      map (fun r =>
             mk_pop_row
               (dict_get (p_gu r) (p_gu r) (reverse_mapping gu_mapping))
               (p_pop r))
          pop_clean
  end.

(** A row of [crime_df_with_pop]. *)
Record merged_row : Type := mk_merged_row {
  m_crime : crime_row;
  m_pop : fl
}.

(** [pd.merge(crime_df, pop_clean, on='자치구', how='left')]: the rows
    of the left table in order, each with every matching row of the
    right table, or with a missing value when there is none. *)
Definition left_merge (crime_df : list crime_row) (pop_clean : list pop_row)
  : list merged_row :=
  flat_map
    (fun c =>
       match filter (fun p => eqb (p_gu p) (gu c)) pop_clean with
       | [] => [mk_merged_row c NaN]
       | ms => map (fun p => mk_merged_row c (p_pop p)) ms
       end)
    crime_df.

(** Lines 167-275 of [preprocess], from the aggregated crime table and
    the two columns kept of the population sheet. *)
Definition reconcile (crime_df : list crime_row)
  (pop_df : list (option pystr * cell)) : list merged_row :=
  let pop_clean :=
    map (fun r => mk_pop_row (normalize_gu_name (fst r)) (str_to_float (snd r)))
        pop_df in
  let crime_df :=
    map (fun r => mk_crime_row (station r) (counts r)
                    (normalize_gu_name (Some (gu r))))
        crime_df in
  let crime_gu_list := unique (map gu crime_df) in
  let pop_clean := find_jongno pop_clean in
  let pop_clean := correct_jongno crime_gu_list pop_clean in
  let gu_mapping := build_gu_mapping crime_gu_list (map p_gu pop_clean) in
  let pop_clean := apply_mapping gu_mapping pop_clean in
  left_merge crime_df pop_clean.

(** *** [generate_heatmap]: rates and their normalisation *)

Inductive crime_type : Type := Murder | Robbery | Rape | Theft | Violence.

Definition crime_types : list crime_type :=
  [Murder; Robbery; Rape; Theft; Violence].

(** [df[required_cols]] *)
Record heat_row : Type := mk_heat_row {
  h_gu : pystr;
  h_pop : cell;
  h_occur : crime_type -> cell;
  h_arrest : crime_type -> cell
}.

(** [work_df] after the conversion of every numeric column. *)
Record work_row : Type := mk_work_row {
  w_gu : pystr;
  w_pop : fl;
  w_occur : crime_type -> fl;
  w_arrest : crime_type -> fl
}.

Definition to_work (r : heat_row) : work_row :=
  mk_work_row (h_gu r) (str_to_float (h_pop r))
    (fun ct => str_to_float (h_occur r ct))
    (fun ct => str_to_float (h_arrest r ct)).

(** [(work_df['인구'] > 0) & (work_df['인구'].notna())] *)
Definition population_mask (r : work_row) : bool :=
  fl_gtb (w_pop r) (Fin 0) && negb (fl_isna (w_pop r)).

(** The column [rate_df[rate_col]] of one crime type: 0.0, then the
    rows of the mask assigned. *)
Definition occurrence_rate (ct : crime_type) (work_df : list work_row)
  : list fl :=
  map (fun r =>
         if population_mask r
         then fl_round 1 (fl_mul (fl_div (w_occur r ct) (w_pop r)) (Fin 100000))
         else Fin 0)
      work_df.

(** The column [arrest_df[arrest_rate_col]] of one crime type. *)
Definition clearance_rate (ct : crime_type) (work_df : list work_row)
  : list fl :=
  map (fun r =>
         if fl_gtb (w_occur r ct) (Fin 0)
         then fl_round 1 (fl_mul (fl_div (w_arrest r ct) (w_occur r ct)) (Fin 100))
         else Fin 0)
      work_df.

(** [col.loc[col < 0] = 0.0] and [col.loc[col > 1] = 1.0] *)
Definition clamp_negative (col : list fl) : list fl :=
  map (fun v => if fl_ltb v (Fin 0) then Fin 0 else v) col.

Definition clamp_above_one (col : list fl) : list fl :=
  map (fun v => if fl_gtb v (Fin 1) then Fin 1 else v) col.

(** [Series.max()]: the largest value that is not NaN, NaN when there is
    none. *)
Definition max_step (m v : fl) : fl :=
  match v, m with
  | NaN, _ => m
  | Fin _, NaN => v
  | Fin x, Fin y => if Qltb y x then v else m
  end.

Definition column_max (col : list fl) : fl := fold_left max_step col NaN.

(** Lines 621-636 (and 900-916) for one crime type. *)
Definition normalize_column (col : list fl) : list fl :=
  let col := clamp_negative col in
  let max_value := column_max col in
  if fl_gtb max_value (Fin 0) then
    clamp_above_one
      (clamp_negative (map (fun v => fl_round 4 (fl_div v max_value)) col))
  else map (fun _ => Fin 0) col.



Definition unit_value (v : fl) : Prop :=
  match v with
  | NaN => False
  | Fin q => (0 <= q /\ q <= 1)%Q
  end.

Definition finite (v : fl) : Prop :=
  match v with NaN => False | Fin _ => True end.

(** The two assignments that follow the division, on one value. *)
Definition clamp (v : fl) : fl :=
  let v := if fl_ltb v (Fin 0) then Fin 0 else v in
  if fl_gtb v (Fin 1) then Fin 1 else v.

(** The columns of [crime_df_with_pop] that [generate_heatmap] reads,
    when the crime table has its ten numeric columns: a missing
    population is a missing cell. *)
Definition cell_of_fl (x : fl) : cell :=
  match x with
  | Fin q => CFloat q
  | NaN => CNaN
  end.

Definition type_index (ct : crime_type) : nat :=
  match ct with
  | Murder => 0 | Robbery => 1 | Rape => 2 | Theft => 3 | Violence => 4
  end.

Definition heat_of_merged (m : merged_row) : heat_row :=
  mk_heat_row (gu (m_crime m)) (cell_of_fl (m_pop m))
    (fun ct => nth (2 * type_index ct) (counts (m_crime m)) CNaN)
    (fun ct => nth (2 * type_index ct + 1) (counts (m_crime m)) CNaN).

(** The three frames [generate_heatmap] hands to the plot: the rates,
    the normalised rates and the clearance rates, a column for each
    crime type. *)
Definition generate_heatmap (df : list heat_row)
  : list (crime_type * list fl) * list (crime_type * list fl)
    * list (crime_type * list fl) :=
  let work_df := map to_work df in
  let rate_df := map (fun ct => (ct, occurrence_rate ct work_df)) crime_types in
  let rate_df_normalized :=
    map (fun c => (fst c, normalize_column (snd c))) rate_df in
  let arrest_df := map (fun ct => (ct, clearance_rate ct work_df)) crime_types in
  (rate_df, rate_df_normalized, arrest_df).


(** *** [preprocess]: the districts of the stations (lines 74-131) *)

Import KakaoMapSingleton SeoulMethod.

(** The name a station is looked up by: 서울, the 관서명 without its
    last character, 경찰서. *)
Definition station_query (name : pystr) : pystr :=
  u "서울" ++ removelast name ++ u "경찰서".

(** Lines 75-77: [station_names]; a 관서명 that is NaN has no slice. *)
Definition station_names (col : list (option pystr)) : outcome (list pystr) :=
  map_outcome
    (fun name =>
       match name with
       | Some s => Return (station_query s)
       | None => Raise (TypeError (u "'float' object is not subscriptable"))
       end)
    col.

(** What the loop records for a station without a result. *)
Definition no_result : json * json * json :=
  (JStr [], JNum (Fin 0), JNum (Fin 0)).

(** The body of the loop of lines 96-111: the address, the latitude and
    the longitude of one station. *)
Definition lookup_station (kmaps : instance) (http : pystr -> http_result)
  (name : pystr) : outcome (json * json * json) :=
  let? tmp := geocode kmaps http name in
  match tmp with
  | first :: _ =>
      let? formatted_addr := json_get (u "formatted_address") JNull first in
      let? tmp_loc := json_get (u "geometry") JNull first in
      let? location := json_index (u "location") tmp_loc in
      let? lat := json_index (u "lat") location in
      let? lng := json_index (u "lng") location in
      Return (formatted_addr, lat, lng)
  | [] => Return no_result
  end.

(** The loop of lines 96-111, with the calls of [geocode] it makes. *)
Fixpoint lookup_stations (kmaps : instance) (http : pystr -> http_result)
  (names : list pystr) : outcome (list (json * json * json)) * list pystr :=
  match names with
  | [] => (Return [], [])
  | name :: rest =>
      match lookup_station kmaps http name with
      | Raise e => (Raise e, [name])
      | Return r =>
          let '(rs, calls) := lookup_stations kmaps http rest in
          (let? l := rs in Return (r :: l), name :: calls)
      end
  end.

(** The body of the loop of lines 116-126: the first part of the
    address whose last character is 구, or the empty string. *)
Definition gu_of_address (addr : json) : outcome pystr :=
  if truthy addr then
    match addr with
    | JStr s =>
        match filter (last_is ch_gu) (split s) with
        | tmp_gu0 :: _ => Return tmp_gu0
        | [] => Return []
        end
    | _ => Raise (AttributeError (u "split"))
    end
  else Return [].

(** A district [preprocess] reads in an address: nothing, or a part of
    the address that ends with 구. *)
Definition district_part (g : pystr) : Prop :=
  g = [] \/
  (endswith [ch_gu] g = true /\ Forall (fun c => isspace c = false) g).

(** Lines 74-128: [gu_names], and the calls of [geocode] made.
    [kmaps] is the client that lines 86-94 obtain, the instance the
    process already holds. *)
Definition station_districts (kmaps : instance) (http : pystr -> http_result)
  (col : list (option pystr)) : outcome (list pystr) * list pystr :=
  match station_names col with
  | Raise e => (Raise e, [])
  | Return names =>
      let '(found, calls) := lookup_stations kmaps http names in
      (let? station_addrs := found in
       map_outcome gu_of_address (map (fun r => fst (fst r)) station_addrs),
       calls)
  end.

(** Lines 72-138: the crime table with its 자치구 column, aggregated.
    [crime_csv] is what [crime.csv] holds, 관서명 and the numeric
    columns of each row, [None] when the file does not exist. *)
Definition crime_by_district (ncols : nat) (kmaps : instance)
  (http : pystr -> http_result)
  (crime_csv : option (list (option pystr * list cell)))
  : outcome (list crime_row) * list pystr :=
  match crime_csv with
  | None => (Raise (FileNotFoundError (u "crime.csv")), [])
  | Some rows =>
      let '(gu_names, calls) := station_districts kmaps http (map fst rows) in
      (let? gu_names := gu_names in
       Return
         (_merge_duplicate_gu ncols
            (map (fun rg => mk_crime_row (fst (fst rg)) (snd (fst rg)) (snd rg))
                 (combine rows gu_names))),
       calls)
  end.

(** *** [add_district_to_crime] *)

(** The loop over 관서명, with the calls of [geocode] made; a name that
    is NaN has no [endswith]. *)
Fixpoint district_loop (self : method) (names : list (option pystr))
  : outcome (list pystr) * list pystr :=
  match names with
  | [] => (Return [], [])
  | None :: _ => (Raise (AttributeError (u "endswith")), [])
  | Some name :: rest =>
      match station_to_district self name with
      | (Raise e, calls) => (Raise e, calls)
      | (Return gu, calls) =>
          let '(r, calls') := district_loop self rest in
          (let? gu_names := r in Return (gu :: gu_names), calls ++ calls')
      end
  end.

(** [add_district_to_crime]: the rows of [crime.csv], which has no
    자치구 column of its own, with that column inserted. *)
Definition add_district_to_crime (self : method)
  (crime_csv : option (list (option pystr * list cell)))
  : outcome (list crime_row) * list pystr :=
  match crime_csv with
  | None => (Raise (FileNotFoundError (u "crime.csv")), [])
  | Some rows =>
      let '(r, calls) := district_loop self (map fst rows) in
      (let? gu_names := r in
       Return
         (map (fun rg => mk_crime_row (fst (fst rg)) (snd (fst rg)) (snd rg))
              (combine rows gu_names)),
       calls)
  end.

(** *** Orders and totals of the aggregated table *)

(** A list of districts in the order of [groupby]. *)
Definition ascending : list pystr -> Prop :=
  StronglySorted (fun a b => leb a b = true).


(** The population [pd.merge] puts beside a district when the names of
    the population table are distinct. *)
Definition population_of (pop_clean : list pop_row) (district : pystr) : fl :=
  match find (fun p => eqb (p_gu p) district) pop_clean with
  | Some p => p_pop p
  | None => NaN
  end.

(** *** [generate_crime_rate_map]: the total rate and the centroids *)




(** What the lookups and the arithmetic of [calculate_centroid] can
    raise. *)
Inductive centroid_exn : Type :=
| Index_error
| Key_error
| Type_error
| Zero_division_error.

Definition bind_centroid {A B} (m : A + centroid_exn)
  (k : A -> B + centroid_exn) : B + centroid_exn :=
  match m with
  | inl a => k a
  | inr e => inr e
  end.

Notation "'let!' x ':=' m 'in' k" := (bind_centroid m (fun x => k))
  (at level 10, x name, m at level 100, k at level 200).

(** [j[i]] for an integer [i] that is not negative. *)
Definition subscript (i : nat) (j : json) : json + centroid_exn :=
  match j with
  | JList l =>
      match nth_error l i with
      | Some x => inl x
      | None => inr Index_error
      end
  | JStr s =>
      match nth_error s i with
      | Some c => inl (JStr [c])
      | None => inr Index_error
      end
  | JDict _ => inr Key_error
  | _ => inr Type_error
  end.

(** [isinstance(j, list)] *)
Definition is_list (j : json) : bool :=
  match j with JList _ => true | _ => false end.

(** The values a [for] loop or [extend] takes from [j]. *)
Definition elements (j : json) : list json + centroid_exn :=
  match j with
  | JList l => inl l
  | JStr s => inl (map (fun c => JStr [c]) s)
  | JDict d => inl (map (fun kv => JStr (fst kv)) d)
  | _ => inr Type_error
  end.

Fixpoint map_centroid {A B} (f : A -> B + centroid_exn) (l : list A)
  : list B + centroid_exn :=
  match l with
  | [] => inl []
  | x :: t =>
      let! y := f x in
      let! ys := map_centroid f t in
      inl (y :: ys)
  end.

(** The loop that flattens the groups of coordinates. *)
Fixpoint flatten_groups (groups : list json) : list json + centroid_exn :=
  match groups with
  | [] => inl []
  | coord_group :: rest =>
      let! first := subscript 0 coord_group in
      let! here := (if is_list first then elements coord_group
                    else inl [coord_group]) in
      let! more := flatten_groups rest in
      inl (here ++ more)
  end.

(** [sum(values)], from the integer 0; a boolean counts as 0 or 1. *)
Fixpoint sum_numbers (total : fl) (values : list json) : fl + centroid_exn :=
  match values with
  | [] => inl total
  | JNum x :: rest => sum_numbers (fl_add total x) rest
  | JBool b :: rest => sum_numbers (fl_add total (Fin (if b then 1 else 0))) rest
  | _ :: _ => inr Type_error
  end.

(** [sum(values) / len(values)] *)
Definition mean (values : list json) : fl + centroid_exn :=
  let! total := sum_numbers (Fin 0) values in
  match values with
  | [] => inr Zero_division_error
  | _ :: _ => inl (fl_div total (Fin (inject_Z (Z.of_nat (length values)))))
  end.

(** [calculate_centroid(coordinates)]: latitude, then longitude. *)
Definition calculate_centroid (coordinates : json) : fl * fl + centroid_exn :=
  let! first := subscript 0 coordinates in
  let! first_first := subscript 0 first in
  let! coords :=
    (if is_list first_first then
       let! groups := elements coordinates in flatten_groups groups
     else elements coordinates) in
  let! lats := map_centroid (subscript 1) coords in
  let! lons := map_centroid (subscript 0) coords in
  let! lat := mean lats in
  let! lon := mean lons in
  inl (lat, lon).

(** A GeoJSON position (longitude, latitude) and a linear ring of
    positions. *)
Definition position (p : Q * Q) : json :=
  JList [JNum (Fin (fst p)); JNum (Fin (snd p))].

Definition linear_ring (points : list (Q * Q)) : json :=
  JList (map position points).

End SeoulService.

(* ================================================================== *)
(** ** Sample tables *)
(* ================================================================== *)

Module Samples.

Import SeoulService.

(** Three stations, two of them in 강남구. *)
Definition crime_rows : list crime_row :=
  [mk_crime_row (Some (u "중부서")) [CStr (u "2"); CStr (u "2")] (u "중구");
   mk_crime_row (Some (u "강남서")) [CStr (u "3"); CStr (u "1,200")] (u "강남구");
   mk_crime_row (Some (u "수서서")) [CStr (u "5"); CStr (u "x")] (u "강남구")].


Definition gangnam_row : crime_row :=
  mk_crime_row (Some (u "강남서")) [CStr (u "3")] (u "강남구").

Definition seocho_population : list pop_row :=
  [mk_pop_row (u "서초구") (Fin 400000)].

Definition jongno_population_rows : list pop_row :=
  [mk_pop_row (u "중구") (Fin 130000); mk_pop_row (u "종로구") (Fin 150000)].




End Samples.

(* ================================================================== *)
(** * Properties *)
(* ================================================================== *)

(** ** Strings *)

Lemma eqb_eq (a b : pystr) : eqb a b = true <-> a = b.
Proof.
  revert b; induction a as [|x a IH]; intros [|y b]; simpl;
    try (split; [discriminate | discriminate]); try tauto.
  rewrite andb_true_iff, N.eqb_eq, IH.
  split; [intros [-> ->]; reflexivity | intros H; inversion H; auto].
Qed.

Lemma eqb_refl (a : pystr) : eqb a a = true.
Proof. apply eqb_eq; reflexivity. Qed.

Lemma eqb_neq (a b : pystr) : eqb a b = false <-> a <> b.
Proof.
  rewrite <- eqb_eq. destruct (eqb a b); split; congruence.
Qed.

Lemma eqb_sym (a b : pystr) : eqb a b = eqb b a.
Proof.
  destruct (eqb a b) eqn:E.
  - apply eqb_eq in E; subst; symmetry; apply eqb_refl.
  - symmetry; apply eqb_neq; apply eqb_neq in E; congruence.
Qed.

Lemma mem_In (x : pystr) (l : list pystr) : mem x l = true <-> In x l.
Proof.
  unfold mem. rewrite existsb_exists. split.
  - intros (y & Hy & E). apply eqb_eq in E. subst; assumption.
  - intros H. exists x. split; [assumption | apply eqb_refl].
Qed.

Lemma mem_not_In (x : pystr) (l : list pystr) : mem x l = false <-> ~ In x l.
Proof.
  rewrite <- mem_In. destruct (mem x l); split; congruence.
Qed.

(** The literals of the source decode to the code points it compares
    with. *)
Example literal_seo : u "서" = [ch_seo].
Proof. reflexivity. Qed.

Example literal_gu : u "구" = [ch_gu].
Proof. reflexivity. Qed.

(** ** The geocode client *)

Section Geocode.

Import KakaoMapSingleton.

Variable key url : pystr.

Let client : instance := mk_instance 0 (Some key) (Some url).

(** A client built by a successful [__new__] runs the [try] block under
    its handlers. *)
Lemma geocode_unfold (http : pystr -> http_result) (address : pystr) :
  geocode client http address = geocode_handlers (geocode_try (http address)).
Proof. reflexivity. Qed.

(** Inside the [try] block a 403 with a readable body does raise the
    access-denied [ValueError] with the message of the service. *)
Lemma geocode_try_403 (d : list (pystr * json)) :
  geocode_try (Response 403 (Some (JDict d)))
  = Raise (ValueError
             (forbidden_message
                (show_json (dict_get (u "message") (JStr (u "Forbidden")) d)))).
Proof. reflexivity. Qed.

(** C3 (the code at the failing input): for every response of status
    403 whose body is JSON, [geocode] returns the empty list: the
    [ValueError] raised in the [try] block is taken by the
    [except Exception] handler of the same block, so that the caller
    sees what it sees when the service finds no document.  (A body that
    is not JSON makes [response.json()] raise, and that exception of
    [requests] is raised again.) *)
Theorem geocode_403_returns_empty_list
  (body : option json) (address : pystr) :
  geocode client (fun _ => Response 403 body) address
  = match body with
    | Some _ => Return []
    | None => Raise (RequestException (u "JSONDecodeError"))
    end
  /\ geocode client
       (fun _ => Response 403 (Some (JDict [(u "message", JStr (u "disabled"))])))
       address = Return []
  /\ geocode client
       (fun _ => Response 200 (Some (JDict [(u "documents", JList [])])))
       address = Return [].
Proof.
  split; [|split; reflexivity].
  destruct body as [j|]; [|reflexivity].
  rewrite geocode_unfold. simpl.
  destruct j; reflexivity.
Qed.

(** Every reshaped document has exactly the two keys
    [formatted_address] and [geometry]. *)
Lemma reshape_keys (doc r : json) :
  reshape doc = Return r ->
  exists fa geo,
    r = JDict [(u "formatted_address", fa); (u "geometry", geo)].
Proof.
  unfold reshape. destruct doc; simpl; try discriminate.
  destruct (float_of_json (dict_get (u "y") (JNum (Fin 0)) d)); simpl;
    try discriminate.
  destruct (float_of_json (dict_get (u "x") (JNum (Fin 0)) d)); simpl;
    try discriminate.
  intros H; injection H as <-. eauto.
Qed.

Lemma geocode_try_shape (resp : http_result) (l : list json) :
  geocode_try resp = Return l ->
  l = [] \/
  exists fa geo,
    l = [JDict [(u "formatted_address", fa); (u "geometry", geo)]].
Proof.
  destruct resp as [msg | status body]; simpl; try discriminate.
  destruct (status =? 403)%Z.
  - destruct (response_json body) as [j|]; simpl; try discriminate.
    destruct (json_get (u "message") (JStr (u "Forbidden")) j); simpl;
      discriminate.
  - destruct ((400 <=? status) && (status <? 600))%Z; try discriminate.
    destruct (response_json body) as [j|]; simpl; try discriminate.
    destruct (json_get (u "documents") JNull j) as [docs|]; simpl;
      try discriminate.
    destruct (truthy docs).
    + destruct docs as [| | | |[|doc docs]|]; try discriminate.
      destruct (reshape doc) as [r|] eqn:E; simpl; try discriminate.
      intros H; injection H as <-. right.
      destruct (reshape_keys doc E) as (fa & geo & ->). eauto.
    + intros H; injection H as <-. left; reflexivity.
Qed.

Lemma geocode_shape (self : instance) (http : pystr -> http_result)
  (address : pystr) (l : list json) :
  geocode self http address = Return l ->
  l = [] \/
  exists fa geo,
    l = [JDict [(u "formatted_address", fa); (u "geometry", geo)]].
Proof.
  unfold geocode.
  destruct (_base_url self); [|discriminate].
  destruct (_api_key self); [|discriminate].
  unfold geocode_handlers.
  destruct (geocode_try (http address)) as [l0|e] eqn:E.
  - intros H; injection H as <-. exact (geocode_try_shape _ E).
  - destruct (is_request_exception e); [discriminate|].
    intros H; injection H as <-. left; reflexivity.
Qed.

End Geocode.

(** ** The singleton and its key *)

Section Singleton.

Import KakaoMapSingleton.

(** Once the class variable holds an instance, a construction returns
    it and changes nothing, whatever the environment has become. *)
Lemma new_cached (dotenv : option (list (pystr * pystr))) (p : process)
  (inst : instance) :
  _instance p = Some inst -> __new__ dotenv p = (Return inst, p).
Proof. unfold __new__. intros ->. reflexivity. Qed.

Lemma constructions_cached (later : list (option (list (pystr * pystr))))
  (p : process) (inst : instance) :
  _instance p = Some inst ->
  constructions later p = (map (fun _ => Return inst) later, p).
Proof.
  intros H. induction later as [|d ds IH]; simpl; [reflexivity|].
  rewrite (new_cached d p H), IH. reflexivity.
Qed.

(** C9 (as the code has it): the key is read by the first construction
    of the client, once, from [KAKAO_REST_API_KEY] or else
    [KAKAO_MAP_API_KEY]; every later construction returns the same
    instance with the same key and reads nothing; when neither variable
    has a value, it is the first construction that raises the
    configuration error. *)
Theorem api_key_read_by_first_construction
  (dotenv : option (list (pystr * pystr))) (env : list (pystr * pystr)) :
  (forall key,
      getenv_or KAKAO_REST_API_KEY KAKAO_MAP_API_KEY (loaded dotenv env)
      = Some key ->
      key <> [] ->
      exists inst p1,
        __new__ dotenv (initial_process env) = (Return inst, p1)
        /\ _api_key inst = Some key
        /\ key_reads p1 = 1%nat
        /\ forall later,
            constructions later p1 = (map (fun _ => Return inst) later, p1))
  /\ (getenv_or KAKAO_REST_API_KEY KAKAO_MAP_API_KEY (loaded dotenv env) = None
      \/ getenv_or KAKAO_REST_API_KEY KAKAO_MAP_API_KEY (loaded dotenv env)
         = Some [] ->
      fst (__new__ dotenv (initial_process env))
      = Raise (ValueError missing_key_message)).
Proof.
  split.
  - intros key Hkey Hne.
    destruct key as [|c key]; [congruence|].
    unfold __new__, initial_process, _retrieve_api_key; simpl.
    rewrite Hkey.
    eexists _, _. split; [reflexivity|]. simpl.
    split; [reflexivity|]. split; [reflexivity|].
    intros later. apply constructions_cached. reflexivity.
  - intros H.
    unfold __new__, initial_process, _retrieve_api_key; simpl.
    destruct H as [-> | ->]; reflexivity.
Qed.

Lemma api_key_read_by_first_construction_witness :
  exists inst p1,
    __new__ None (initial_process [(KAKAO_MAP_API_KEY, u "abc")])
    = (Return inst, p1)
    /\ _api_key inst = Some (u "abc")
    /\ key_reads p1 = 1%nat
    /\ forall later, constructions later p1 = (map (fun _ => Return inst) later, p1).
Proof.
  apply (proj1 (api_key_read_by_first_construction None
                  [(KAKAO_MAP_API_KEY, u "abc")]) (u "abc")).
  - reflexivity.
  - discriminate.
Defined.

(** C9 (the claim refuted): with neither variable set and no [.env]
    file, the construction of the client itself raises; there is no
    instance on which a first geocode attempt could raise instead, and
    the import of the router, which builds the service, fails the same
    way. *)
Lemma construction_without_key_raises :
  fst (__new__ None (initial_process [])) = Raise (ValueError missing_key_message)
  /\ (~ exists inst, fst (__new__ None (initial_process [])) = Return inst)
  /\ fst (SeoulMethod.__init__ None (fun _ => Transport_error []) None
            (initial_process []))
     = Raise (ValueError missing_key_message).
Proof.
  split; [reflexivity|]. split; [|reflexivity].
  intros (inst & H). discriminate H.
Qed.

(** After a construction that failed, the class variable still holds
    the object without its attributes: the next construction returns it
    and reads no key, and [geocode] on it fails on the missing
    attribute. *)
Example construction_after_failure :
  fst (constructions [None; None] (initial_process []))
  = [Raise (ValueError missing_key_message);
     Return (mk_instance 0 None None)]
  /\ key_reads (snd (constructions [None; None] (initial_process []))) = 1%nat
  /\ geocode (mk_instance 0 None None) (fun _ => Transport_error []) []
     = Raise (AttributeError (u "_base_url")).
Proof. repeat split. Qed.

End Singleton.

(** ** The district resolver *)

Section Resolver.

Import KakaoMapSingleton SeoulMethod.

(** What the basic rule gives when its rewrite is a known district. *)
Lemma station_to_district_known (self : method) (station_name : pystr)
  (valid : list (option pystr)) :
  cctv_csv self = Some valid ->
  endswith [ch_seo] station_name = true ->
  in_column (replace ch_seo [ch_gu] station_name) valid = true ->
  station_to_district self station_name
  = (Return (replace ch_seo [ch_gu] station_name), []).
Proof.
  intros Hc He Hv. unfold station_to_district. rewrite He, Hc, Hv.
  reflexivity.
Qed.

Example station_to_district_mapo (i : instance) (h : pystr -> http_result) :
  station_to_district (mk_method i h (Some [Some (u "마포구")])) (u "마포서")
  = (Return (u "마포구"), []).
Proof. reflexivity. Qed.

Lemma endswith_char (c : N) (s : pystr) :
  endswith [c] s = true -> s = removelast s ++ [c].
Proof.
  unfold endswith. simpl rev.
  destruct (rev s) as [|x r] eqn:E; simpl; [discriminate|].
  rewrite andb_true_r. intros H. apply N.eqb_eq in H. subst x.
  assert (Es : s = rev r ++ [c]).
  { rewrite <- (rev_involutive s), E. reflexivity. }
  rewrite Es at 2. rewrite removelast_last. exact Es.
Qed.

Lemma replace_absent (c : N) (new t : pystr) :
  ~ In c t -> replace c new t = t.
Proof.
  unfold replace. induction t as [|x t IH]; simpl; [reflexivity|].
  intros H. destruct (N.eqb_spec x c) as [->|_].
  - exfalso. apply H. auto.
  - simpl. rewrite IH; [reflexivity|]. intros H'. apply H. auto.
Qed.

(** Where the code and the naive rewrite agree: on a name whose only 서
    is the last character. *)
Lemma replace_single_seo (station_name : pystr) :
  endswith [ch_seo] station_name = true ->
  ~ In ch_seo (removelast station_name) ->
  replace ch_seo [ch_gu] station_name = naive_rewrite station_name.
Proof.
  intros He Hn. rewrite (@endswith_char _ _ He) at 1.
  unfold replace. rewrite flat_map_app. fold (replace ch_seo [ch_gu]).
  fold (replace ch_seo [ch_gu] (removelast station_name)).
  rewrite (@replace_absent _ _ _ Hn). reflexivity.
Qed.

(** C1 (the code at the failing input): 서대문서 ends with 서 and its
    naive rewrite 서대문구 is a district of the CCTV table, yet
    [station_to_district] does not return it without a geocode call: the
    candidate the code computes is 구대문구, because [replace] rewrites
    every 서 of the name; that candidate is unknown, one geocode call is
    made, and when the geocoder finds nothing the answer is 구대문구. *)
Theorem station_to_district_rewrites_every_seo
  (i : instance) (h : pystr -> http_result) :
  let valid := [Some (u "서대문구")] in
  let self := mk_method i h (Some valid) in
  endswith [ch_seo] (u "서대문서") = true
  /\ naive_rewrite (u "서대문서") = u "서대문구"
  /\ in_column (naive_rewrite (u "서대문서")) valid = true
  /\ station_to_district self (u "서대문서")
     <> (Return (naive_rewrite (u "서대문서")), [])
  /\ replace ch_seo [ch_gu] (u "서대문서") = u "구대문구"
  /\ snd (station_to_district self (u "서대문서")) = [u "서대문서 서울"]
  /\ station_to_district
       (mk_method (mk_instance 0 (Some (u "key")) (Some base_url))
          (fun _ => Response 200 (Some (JDict [(u "documents", JList [])])))
          (Some valid))
       (u "서대문서")
     = (Return (u "구대문구"), [u "서대문서 서울"]).
Proof.
  intros valid self.
  assert (Calls : snd (station_to_district self (u "서대문서"))
                  = [u "서대문서 서울"]) by reflexivity.
  repeat split; try reflexivity.
  intros E. rewrite E in Calls. discriminate Calls.
Qed.

(** What the regular expression finds: a run of at least two Hangul
    syllables of the address that ends with 구. *)
Lemma match_tail_sound (s r : pystr) :
  match_tail s = Some r ->
  (exists t, r = t ++ [ch_gu])
  /\ Forall (fun c => is_hangul c = true) r
  /\ startswith r s = true.
Proof.
  revert r. induction s as [|c s IH]; intros r; simpl; [discriminate|].
  destruct (is_hangul c) eqn:Hc; [|discriminate].
  destruct (match_tail s) as [r'|].
  - intros E; injection E as <-.
    destruct (IH r' eq_refl) as ((t & ->) & HF & HS).
    split; [exists (c :: t); reflexivity|].
    split; [constructor; assumption|].
    simpl. rewrite N.eqb_refl. exact HS.
  - destruct (N.eqb_spec c ch_gu) as [->|_]; [|discriminate].
    intros E; injection E as <-.
    split; [exists []; reflexivity|].
    split; [repeat constructor; exact Hc|].
    reflexivity.
Qed.

Lemma re_search_gu_sound (s m : pystr) :
  re_search_gu s = Some m ->
  (exists t, t <> [] /\ m = t ++ [ch_gu])
  /\ Forall (fun c => is_hangul c = true) m
  /\ contains m s = true.
Proof.
  induction s as [|c s IH]; [discriminate|].
  unfold re_search_gu; fold re_search_gu.
  destruct (match_here (c :: s)) as [m'|] eqn:E.
  - intros H; injection H as <-. unfold match_here in E.
    destruct (is_hangul c) eqn:Hc; [|discriminate].
    destruct (match_tail s) as [r|] eqn:T; [|discriminate].
    injection E as <-.
    destruct (match_tail_sound _ T) as ((t & ->) & HF & HS).
    split; [exists (c :: t); split; [discriminate | reflexivity]|].
    split; [constructor; assumption|].
    cbn [contains startswith app]. rewrite N.eqb_refl, HS. reflexivity.
  - intros H. destruct (IH H) as (H1 & H2 & H3).
    split; [exact H1|]. split; [exact H2|].
    cbn [contains]. rewrite H3. apply orb_true_r.
Qed.

(** C10: a list returned by [geocode] holds dictionaries whose keys are
    [formatted_address] and [geometry] and nothing else, so never
    [address_components]; in [_get_district_from_kakao_maps] the loop
    over the address components therefore ranges over the empty list,
    and the district of a non-empty result is what the regular
    expression finds in the formatted address (the basic rule when it
    finds nothing or when the address is not a string). *)
Theorem geocode_result_has_no_address_components :
  (forall (client : instance) (remote : pystr -> http_result)
          (address : pystr) (l : list json),
      geocode client remote address = Return l ->
      Forall (fun j => exists d,
                  j = JDict d
                  /\ dict_keys d = [u "formatted_address"; u "geometry"]
                  /\ mem (u "address_components") (dict_keys d) = false) l)
  /\ (forall (self : method) (station_name : pystr) (first : json)
             (rest : list json),
      geocode (kakao_map self) (http self) (station_name ++ u " 서울")
      = Return (first :: rest) ->
      (let? comps := json_get (u "address_components") (JList []) first in
       iterate comps) = Return []
      /\ exists formatted_address,
          json_get (u "formatted_address") (JStr []) first
          = Return formatted_address
          /\ fst (_get_district_from_kakao_maps self station_name)
             = match formatted_address with
               | JStr s =>
                   match re_search_gu s with
                   | Some district => district
                   | None => basic_rule station_name
                   end
               | _ => basic_rule station_name
               end).
Proof.
  split.
  - intros client remote address l H.
    destruct (geocode_shape _ _ _ H) as [-> | (fa & geo & ->)].
    + constructor.
    + constructor; [|constructor]. eexists; repeat split.
  - intros self station_name first rest H.
    destruct (geocode_shape _ _ _ H) as [E | (fa & geo & E)];
      [discriminate E|].
    injection E as -> ->.
    split; [reflexivity|]. exists fa. split; [reflexivity|].
    unfold _get_district_from_kakao_maps. rewrite H. simpl.
    destruct fa; reflexivity.
Qed.

Lemma geocode_result_has_no_address_components_witness :
  exists first,
    geocode (kakao_map bangbae_method) (http bangbae_method)
      (u "방배서" ++ u " 서울") = Return [first]
    /\ (exists d,
          first = JDict d
          /\ dict_keys d = [u "formatted_address"; u "geometry"]
          /\ mem (u "address_components") (dict_keys d) = false)
    /\ (let? comps := json_get (u "address_components") (JList []) first in
        iterate comps) = Return [].
Proof.
  eexists.
  assert (H : geocode (kakao_map bangbae_method) (http bangbae_method)
                (u "방배서" ++ u " 서울") = Return [_])
    by (vm_compute; reflexivity).
  split; [exact H|]. split.
  - pose proof (proj1 geocode_result_has_no_address_components _ _ _ _ H)
      as F.
    inversion F; assumption.
  - apply (proj2 geocode_result_has_no_address_components
             bangbae_method (u "방배서") _ [] H).
Defined.

(** The scenario of the specification: 방배구 is not a district, the
    geocoder gives an address in 강남구. *)
Example station_to_district_bangbae :
  station_to_district bangbae_method (u "방배서")
  = (Return (u "강남구"), [u "방배서 서울"]).
Proof. vm_compute; reflexivity. Qed.

End Resolver.

(** ** Duplicate districts *)

Section MergeDuplicateGu.

Import SeoulService.

Lemma In_unique (x : pystr) (l : list pystr) : In x (unique l) <-> In x l.
Proof.
  induction l as [|y t IH]; simpl; [tauto|].
  rewrite filter_In, IH, negb_true_iff, eqb_neq.
  split.
  - intros [->|[H _]]; auto.
  - intros [->|H]; auto.
    destruct (list_eq_dec N.eq_dec y x) as [->|Hne]; auto.
Qed.

Lemma NoDup_unique (l : list pystr) : NoDup (unique l).
Proof.
  induction l as [|y t IH]; simpl; constructor.
  - rewrite filter_In, negb_true_iff, eqb_neq. intros [_ H]. congruence.
  - apply NoDup_filter. exact IH.
Qed.

Lemma insert_key_perm (x : pystr) (l : list pystr) :
  Permutation (insert_key x l) (x :: l).
Proof.
  induction l as [|y t IH]; simpl; [reflexivity|].
  destruct (leb x y); [reflexivity|].
  rewrite IH. apply perm_swap.
Qed.

Lemma sort_keys_perm (l : list pystr) : Permutation (sort_keys l) l.
Proof.
  induction l as [|x t IH]; simpl; [reflexivity|].
  rewrite insert_key_perm. constructor. exact IH.
Qed.


Lemma NoDup_group_keys (df : list crime_row) : NoDup (group_keys df).
Proof.
  unfold group_keys.
  apply (Permutation_NoDup (l := unique (map gu df))).
  - symmetry. apply sort_keys_perm.
  - apply NoDup_unique.
Qed.

Lemma merge_keys (ncols : nat) (df : list crime_row) :
  map gu (_merge_duplicate_gu ncols df) = group_keys df.
Proof.
  unfold _merge_duplicate_gu. rewrite map_map. simpl. apply map_id.
Qed.

Lemma add_cell_contribution (total : Z) (val : cell) :
  add_cell total val = (total + contribution val)%Z.
Proof.
  unfold add_cell, contribution.
  destruct val; simpl; try lia; destruct (py_int _); lia.
Qed.

Lemma fold_add_cell (series : list cell) (total : Z) :
  fold_left add_cell series total
  = (total + Zsum (map contribution series))%Z.
Proof.
  revert total. induction series as [|v t IH]; intros total; simpl.
  - lia.
  - rewrite IH, add_cell_contribution. lia.
Qed.

Lemma sum_string_numbers_value (series : list cell) :
  sum_string_numbers series = format_commas (Zsum (map contribution series)).
Proof.
  unfold sum_string_numbers. rewrite fold_add_cell. reflexivity.
Qed.





End MergeDuplicateGu.

(** ** Reconciliation of district names and the merge *)

Section Reconcile.

Import SeoulService.

Lemma dict_lookup_set {V} (k k' : pystr) (v : V) (d : list (pystr * V)) :
  dict_lookup k (dict_set k' v d)
  = if eqb k k' then Some v else dict_lookup k d.
Proof.
  induction d as [|[a b] d IH]; simpl.
  - destruct (eqb k k'); reflexivity.
  - destruct (eqb k' a) eqn:E; simpl.
    + apply eqb_eq in E; subst a. destruct (eqb k k'); reflexivity.
    + rewrite IH. destruct (eqb k a) eqn:E'; [|reflexivity].
      apply eqb_eq in E'; subst a.
      rewrite eqb_sym, E. reflexivity.
Qed.

Lemma In_dict_set {V} (k : pystr) (v : V) (d : list (pystr * V))
  (a : pystr) (b : V) :
  In (a, b) (dict_set k v d) -> (a, b) = (k, v) \/ In (a, b) d.
Proof.
  induction d as [|[a' b'] d IH]; simpl.
  - intros [H|[]]; auto.
  - destruct (eqb k a') eqn:E; simpl.
    + apply eqb_eq in E; subst a'. intros [H|H]; auto.
    + intros [H|H]; auto. destruct (IH H); auto.
Qed.

Lemma gu_mapping_step_lookup (ps : list pystr) (acc : list (pystr * pystr))
  (x c : pystr) :
  dict_lookup c (gu_mapping_step ps acc x)
  = if eqb c x
    then match mapped ps c with
         | Some s => Some s
         | None => dict_lookup c acc
         end
    else dict_lookup c acc.
Proof.
  unfold gu_mapping_step, mapped.
  destruct (eqb c x) eqn:E.
  - apply eqb_eq in E; subst x.
    destruct (needs_mapping ps c); [|reflexivity].
    destruct (filter (similar c) ps); simpl; [reflexivity|].
    rewrite dict_lookup_set, eqb_refl. reflexivity.
  - destruct (needs_mapping ps x); [|reflexivity].
    destruct (filter (similar x) ps); [reflexivity|].
    rewrite dict_lookup_set, E. reflexivity.
Qed.

Lemma fold_gu_mapping_lookup (ps cs : list pystr)
  (acc : list (pystr * pystr)) (c : pystr) :
  dict_lookup c (fold_left (gu_mapping_step ps) cs acc)
  = if mem c cs
    then match mapped ps c with
         | Some s => Some s
         | None => dict_lookup c acc
         end
    else dict_lookup c acc.
Proof.
  revert acc. induction cs as [|x cs IH]; intros acc; [reflexivity|].
  simpl fold_left. rewrite IH, gu_mapping_step_lookup.
  unfold mem; simpl. fold (mem c cs).
  destruct (eqb c x), (mem c cs), (mapped ps c); reflexivity.
Qed.

(** What [gu_mapping] holds for a district of the crime table. *)
Lemma build_gu_mapping_lookup (cs ps : list pystr) (c : pystr) :
  In c cs -> dict_lookup c (build_gu_mapping cs ps) = mapped ps c.
Proof.
  intros H. unfold build_gu_mapping.
  rewrite fold_gu_mapping_lookup.
  apply mem_In in H. rewrite H. destruct (mapped ps c); reflexivity.
Qed.

Lemma fold_gu_mapping_entries (ps cs : list pystr)
  (acc : list (pystr * pystr)) (k v : pystr) :
  In (k, v) (fold_left (gu_mapping_step ps) cs acc) ->
  In (k, v) acc \/ (In k cs /\ mapped ps k = Some v).
Proof.
  revert acc. induction cs as [|x cs IH]; intros acc; simpl; [auto|].
  intros H. destruct (IH _ H) as [H1|[H1 H2]]; [|auto].
  unfold gu_mapping_step in H1.
  destruct (needs_mapping ps x) eqn:N; [|auto].
  destruct (filter (similar x) ps) as [|s t] eqn:F; [auto|].
  destruct (In_dict_set _ _ _ _ _ H1) as [E|E]; [|auto].
  injection E as -> ->. right. split; [auto|].
  unfold mapped. rewrite N, F. reflexivity.
Qed.

Lemma build_gu_mapping_entries (cs ps : list pystr) (k v : pystr) :
  In (k, v) (build_gu_mapping cs ps) -> In k cs /\ mapped ps k = Some v.
Proof.
  intros H. destruct (fold_gu_mapping_entries _ _ _ _ _ H) as [[]|H']. exact H'.
Qed.

Lemma dict_lookup_In {V} (k : pystr) (v : V) (d : list (pystr * V)) :
  dict_lookup k d = Some v -> In (k, v) d.
Proof.
  induction d as [|[a b] d IH]; simpl; [discriminate|].
  destruct (eqb k a) eqn:E.
  - apply eqb_eq in E; subst a. intros H; injection H as ->. auto.
  - auto.
Qed.

(** [reverse_mapping]: the value found under a population name is a
    crime district mapped to it, and one is found whenever there is
    one. *)
Lemma fold_reverse_lookup (m acc : list (pystr * pystr)) (p c : pystr) :
  dict_lookup p (fold_left (fun d kv => dict_set (snd kv) (fst kv) d) m acc)
  = Some c ->
  In (c, p) m \/ dict_lookup p acc = Some c.
Proof.
  revert acc. induction m as [|[k v] m IH]; intros acc; simpl; [auto|].
  intros H. destruct (IH _ H) as [H1|H1]; [auto|].
  rewrite dict_lookup_set in H1.
  destruct (eqb p v) eqn:E; [|auto].
  apply eqb_eq in E; subst v. injection H1 as ->. auto.
Qed.

Lemma fold_reverse_defined (m acc : list (pystr * pystr)) (p : pystr) :
  (exists c, In (c, p) m) \/ dict_lookup p acc <> None ->
  dict_lookup p (fold_left (fun d kv => dict_set (snd kv) (fst kv) d) m acc)
  <> None.
Proof.
  revert acc. induction m as [|[k v] m IH]; intros acc; simpl.
  - intros [[c []]|H]; exact H.
  - intros H. apply IH.
    destruct H as [[c [E|H]]|H].
    + injection E as -> ->. right.
      rewrite dict_lookup_set, eqb_refl. discriminate.
    + left; eauto.
    + right. rewrite dict_lookup_set. destruct (eqb p v); [discriminate|exact H].
Qed.

Lemma reverse_mapping_unique (m : list (pystr * pystr)) (p c : pystr) :
  In (c, p) m ->
  (forall c', In (c', p) m -> c' = c) ->
  dict_lookup p (reverse_mapping m) = Some c.
Proof.
  intros Hin Huniq. unfold reverse_mapping.
  destruct (dict_lookup p (fold_left _ m [])) as [c'|] eqn:E.
  - destruct (fold_reverse_lookup _ _ _ E) as [H|H]; [|discriminate].
    rewrite (Huniq _ H). reflexivity.
  - exfalso. revert E. apply fold_reverse_defined. left; eauto.
Qed.

(** C5 (as the code has it): for a district of the crime table that is
    not empty, is not 종로구 and is not a population name, [gu_mapping]
    holds the first population name, in table order, that contains the
    district, is contained in it, or equals it once every 구 is removed
    from both; when no other crime district is mapped to that
    population name, every population row of that name is renamed to
    the crime district, its population unchanged.  Under these tests
    종로 구, with a space inside, is not similar to 종로구; it is the
    special case of 종로구 that brings a population row 종로 구 and a
    crime row 종로구 into one final row, with the population 162,820. *)
Theorem similar_population_name_is_remapped
  (crime_gu_list : list pystr) (pop_clean : list pop_row) (c : pystr) :
  let pop_names := map p_gu pop_clean in
  let gu_mapping := build_gu_mapping crime_gu_list pop_names in
  In c crime_gu_list -> c <> [] -> c <> jongno -> ~ In c pop_names ->
  dict_lookup c gu_mapping = hd_error (filter (similar c) pop_names)
  /\ (forall p,
      hd_error (filter (similar c) pop_names) = Some p ->
      (forall c', In c' crime_gu_list -> mapped pop_names c' = Some p ->
                  c' = c) ->
      forall r, In r pop_clean -> p_gu r = p ->
                In (mk_pop_row c (p_pop r)) (apply_mapping gu_mapping pop_clean))
  /\ similar (u "종로 구") (u "종로구") = false
  /\ reconcile [mk_crime_row (Some (u "종로서")) [] (u "종로구")]
               [(Some (u "종로 구"), CStr (u "150,000"))]
     = [mk_merged_row (mk_crime_row (Some (u "종로서")) [] (u "종로구"))
          (Fin 162820)].
Proof.
  intros pop_names gu_mapping Hc Hne Hj Hnp.
  assert (Hm : mapped pop_names c = hd_error (filter (similar c) pop_names)).
  { unfold mapped, needs_mapping.
    apply eqb_neq in Hne, Hj. apply mem_not_In in Hnp.
    rewrite Hne, Hj, Hnp. reflexivity. }
  assert (Hl : dict_lookup c gu_mapping
               = hd_error (filter (similar c) pop_names)).
  { unfold gu_mapping. rewrite build_gu_mapping_lookup by exact Hc. exact Hm. }
  split; [exact Hl|].
  split; [|split; vm_compute; reflexivity].
  intros p Hp Huniq r Hr Hrp.
  rewrite Hp in Hl. apply dict_lookup_In in Hl.
  assert (Hrev : dict_lookup p (reverse_mapping gu_mapping) = Some c).
  { apply reverse_mapping_unique; [exact Hl|].
    intros c' Hc'. apply build_gu_mapping_entries in Hc' as [H1 H2].
    apply Huniq; assumption. }
  unfold apply_mapping.
  destruct gu_mapping as [|e m] eqn:G; [destruct Hl|].
  apply in_map_iff. exists r. split; [|exact Hr].
  unfold dict_get. rewrite Hrp, Hrev. reflexivity.
Qed.

Lemma similar_population_name_is_remapped_witness :
  dict_lookup (u "종로")
    (build_gu_mapping [u "중구"; u "종로"]
       (map p_gu Samples.jongno_population_rows))
  = Some (u "종로구")
  /\ In (mk_pop_row (u "종로") (Fin 150000))
       (apply_mapping
          (build_gu_mapping [u "중구"; u "종로"]
             (map p_gu Samples.jongno_population_rows))
          Samples.jongno_population_rows).
Proof.
  destruct (@similar_population_name_is_remapped [u "중구"; u "종로"]
              Samples.jongno_population_rows (u "종로"))
    as (Hl & Hr & _).
  - simpl; auto.
  - discriminate.
  - discriminate.
  - apply mem_not_In. vm_compute; reflexivity.
  - split; [exact Hl|].
    apply (Hr (u "종로구") eq_refl) with
      (r := mk_pop_row (u "종로구") (Fin 150000)).
    + intros c' [<-|[<-|[]]] Hm.
      * vm_compute in Hm. discriminate Hm.
      * reflexivity.
    + simpl; auto.
    + reflexivity.
Defined.

(** C5 (the claim refuted): a crime district 종로 구, with a space
    inside, and the population name 종로구 are not similar: neither
    contains the other, and without 구 they still differ by the space.
    Nothing is mapped, the population row keeps its name, and the merged
    row of 종로 구 has no population. *)
Lemma jongno_with_space_is_not_reconciled :
  let crime := [mk_crime_row (Some (u "종로서")) [] (u "종로 구")] in
  let pop := [(Some (u "종로구"), CStr (u "162,820"))] in
  normalize_gu_name (Some (u "종로 구")) = u "종로 구"
  /\ similar (u "종로 구") (u "종로구") = false
  /\ build_gu_mapping [u "종로 구"] [u "종로구"] = []
  /\ reconcile crime pop
     = [mk_merged_row (mk_crime_row (Some (u "종로서")) [] (u "종로 구")) NaN]
  /\ ~ (exists m, In m (reconcile crime pop)
                  /\ gu (m_crime m) = u "종로 구"
                  /\ fl_eq (m_pop m) (Fin 162820)).
Proof.
  intros crime pop.
  assert (E : reconcile crime pop
              = [mk_merged_row
                   (mk_crime_row (Some (u "종로서")) [] (u "종로 구")) NaN])
    by (vm_compute; reflexivity).
  repeat split; try (vm_compute; reflexivity).
  intros (m & Hm & _ & Hp). rewrite E in Hm.
  destruct Hm as [<-|[]]. exact Hp.
Qed.

(** A district the rule does reach: 종로 in the crime table takes the
    population of 종로구. *)
Example jongno_without_suffix_is_reconciled :
  reconcile [mk_crime_row (Some (u "종로서")) [] (u "종로")]
            [(Some (u "종로구"), CStr (u "150,000"))]
  = [mk_merged_row (mk_crime_row (Some (u "종로서")) [] (u "종로"))
       (Fin 150000)].
Proof. vm_compute; reflexivity. Qed.

(** The rows a crime row gives rise to carry that crime row. *)
Lemma In_left_merge (crime : list crime_row) (pop : list pop_row)
  (m : merged_row) :
  In m (left_merge crime pop) <->
  exists c, In c crime /\
    In m (match filter (fun p => eqb (p_gu p) (gu c)) pop with
          | [] => [mk_merged_row c NaN]
          | ms => map (fun p => mk_merged_row c (p_pop p)) ms
          end).
Proof. unfold left_merge. apply in_flat_map. Qed.

Lemma unmatched_filter (pop : list pop_row) (g : pystr) :
  (forall p, In p pop -> p_gu p <> g) ->
  filter (fun p => eqb (p_gu p) g) pop = [].
Proof.
  intros H. induction pop as [|p t IH]; simpl; [reflexivity|].
  destruct (eqb (p_gu p) g) eqn:E.
  - apply eqb_eq in E. exfalso. apply (H p); simpl; auto.
  - apply IH. intros q Hq. apply H. simpl; auto.
Qed.

Lemma merged_rows_of (c : crime_row) (pop : list pop_row) (m : merged_row) :
  In m (match filter (fun p => eqb (p_gu p) (gu c)) pop with
        | [] => [mk_merged_row c NaN]
        | ms => map (fun p => mk_merged_row c (p_pop p)) ms
        end) ->
  m_crime m = c.
Proof.
  destruct (filter _ pop) as [|p ms].
  - intros [<-|[]]. reflexivity.
  - intros H. apply in_map_iff in H as (q & <- & _). reflexivity.
Qed.

(** C4 (as the code has it): the left join keeps every row of the
    crime table; a row whose district has no population entry appears
    with a missing population (NaN), which the merge does not fill; it
    is [str_to_float], in the rate computation, that reads the missing
    cell as 0.0. *)
Theorem left_merge_keeps_rows_unmatched_missing
  (crime_df : list crime_row) (pop_clean : list pop_row) (c : crime_row) :
  In c crime_df ->
  (exists m, In m (left_merge crime_df pop_clean) /\ m_crime m = c)
  /\ ((forall p, In p pop_clean -> p_gu p <> gu c) ->
      In (mk_merged_row c NaN) (left_merge crime_df pop_clean)
      /\ forall m, In m (left_merge crime_df pop_clean) -> m_crime m = c ->
           m_pop m = NaN
           /\ h_pop (heat_of_merged m) = CNaN
           /\ str_to_float (h_pop (heat_of_merged m)) = Fin 0).
Proof.
  intros Hc. split.
  - destruct (filter (fun p => eqb (p_gu p) (gu c)) pop_clean) as [|p ms] eqn:F.
    + exists (mk_merged_row c NaN). split; [|reflexivity].
      apply In_left_merge. exists c. rewrite F. simpl; auto.
    + exists (mk_merged_row c (p_pop p)). split; [|reflexivity].
      apply In_left_merge. exists c. rewrite F. simpl; auto.
  - intros Hno. pose proof (unmatched_filter pop_clean Hno) as F. split.
    + apply In_left_merge. exists c. rewrite F. simpl; auto.
    + intros m Hm Hmc. apply In_left_merge in Hm as (c' & Hc' & Hm).
      pose proof (merged_rows_of _ _ _ Hm) as E.
      rewrite Hmc in E. subst c'. rewrite F in Hm.
      destruct Hm as [<-|[]]. repeat split.
Qed.

Lemma left_merge_keeps_rows_unmatched_missing_witness :
  In Samples.gangnam_row [Samples.gangnam_row]
  /\ In (mk_merged_row Samples.gangnam_row NaN)
       (left_merge [Samples.gangnam_row] Samples.seocho_population).
Proof.
  assert (H : In Samples.gangnam_row [Samples.gangnam_row]) by (simpl; auto).
  split; [exact H|].
  apply (left_merge_keeps_rows_unmatched_missing
           [Samples.gangnam_row] Samples.seocho_population _ H).
  intros p [<-|[]]. apply eqb_neq. vm_compute; reflexivity.
Defined.

(** C4 (the claim refuted): 강남구 has no entry in a population table
    that only knows 서초구; its merged row has the population NaN, not
    0. *)
Lemma left_merge_does_not_fill_zero :
  let c := mk_crime_row (Some (u "강남서")) [CStr (u "3")] (u "강남구") in
  let pop := [mk_pop_row (u "서초구") (Fin 400000)] in
  left_merge [c] pop = [mk_merged_row c NaN]
  /\ ~ (forall m, In m (left_merge [c] pop) -> fl_eq (m_pop m) (Fin 0)).
Proof.
  intros c pop.
  assert (E : left_merge [c] pop = [mk_merged_row c NaN])
    by (vm_compute; reflexivity).
  split; [exact E|].
  intros H. apply (H (mk_merged_row c NaN)). rewrite E. simpl; auto.
Qed.

End Reconcile.

(** ** Rates and their normalisation *)

Section Rates.

Import SeoulService.

Local Open Scope Q_scope.

Lemma Qltb_lt (a b : Q) : Qltb a b = true <-> a < b.
Proof. unfold Qltb, Qlt. apply Z.ltb_lt. Qed.

Lemma Qltb_ge (a b : Q) : Qltb a b = false <-> b <= a.
Proof. unfold Qltb, Qle. rewrite Z.ltb_ge. reflexivity. Qed.

Lemma fl_gtb_pos (m : fl) :
  fl_gtb m (Fin 0) = true -> exists q, m = Fin q /\ 0 < q.
Proof.
  destruct m as [q|]; simpl; [|discriminate].
  intros H. apply Qltb_lt in H. eauto.
Qed.

Lemma fl_div_pos (x y : Q) : 0 < y -> fl_div (Fin x) (Fin y) = Fin (x / y).
Proof.
  intros H. simpl.
  destruct (Qeq_bool y 0) eqn:E; [|reflexivity].
  apply Qeq_bool_eq in E. rewrite E in H. discriminate H.
Qed.



(** *** The derived columns *)



(** *** The maximum of a column *)





(** *** Normalisation *)

Lemma clamps_pointwise (col : list fl) :
  clamp_above_one (clamp_negative col) = map clamp col.
Proof.
  unfold clamp_above_one, clamp_negative. rewrite map_map. reflexivity.
Qed.

Lemma clamp_NaN : clamp NaN = NaN.
Proof. reflexivity. Qed.

Lemma clamp_unit (q : Q) : unit_value (clamp (Fin q)).
Proof.
  unfold clamp. simpl fl_ltb.
  destruct (Qltb q 0) eqn:L.
  - simpl. split; discriminate.
  - apply Qltb_ge in L. simpl fl_gtb.
    destruct (Qltb 1 q) eqn:G.
    + simpl. split; discriminate.
    + apply Qltb_ge in G. simpl. split; assumption.
Qed.




(** What the loop body does, branch by branch. *)
Lemma normalize_column_branches (col : list fl) :
  let clamped := clamp_negative col in
  let max_value := column_max clamped in
  (fl_gtb max_value (Fin 0) = true ->
   normalize_column col
   = map (fun v => clamp (fl_round 4 (fl_div v max_value))) clamped)
  /\ (fl_gtb max_value (Fin 0) = false ->
      normalize_column col = map (fun _ => Fin 0) col).
Proof.
  intros clamped max_value. unfold normalize_column.
  fold clamped. fold max_value. split; intros ->.
  - rewrite clamps_pointwise, map_map. reflexivity.
  - unfold clamped, clamp_negative. rewrite map_map. reflexivity.
Qed.


Lemma clamp_negative_finite (col : list fl) :
  Forall finite col -> Forall finite (clamp_negative col).
Proof.
  intros H. apply Forall_map. revert H. apply Forall_impl.
  intros [q|] Hv; [|destruct Hv]. simpl. destruct (Qltb q 0); exact I.
Qed.

Lemma normalize_column_unit_values (col : list fl) :
  Forall finite col -> Forall unit_value (normalize_column col).
Proof.
  intros Hfin.
  destruct (normalize_column_branches col) as [Hpos Hzero].
  destruct (fl_gtb (column_max (clamp_negative col)) (Fin 0)) eqn:G.
  - rewrite (Hpos eq_refl). apply Forall_map.
    destruct (fl_gtb_pos _ G) as (mq & -> & Hm).
    pose proof (clamp_negative_finite Hfin) as Hc.
    revert Hc. apply Forall_impl.
    intros [q|] Hv; [|destruct Hv].
    rewrite (fl_div_pos q Hm). apply clamp_unit.
  - rewrite (Hzero eq_refl). apply Forall_map. apply Forall_forall.
    intros v _. simpl. split; discriminate.
Qed.






Lemma occurrence_rate_finite (ct : crime_type) (work_df : list work_row) :
  Forall (fun r => finite (w_occur r ct)) work_df ->
  Forall finite (occurrence_rate ct work_df).
Proof.
  intros H. apply Forall_map. revert H. apply Forall_impl.
  intros r Hr. unfold population_mask.
  destruct (w_occur r ct) as [o|]; [|destruct Hr].
  destruct (w_pop r) as [p|]; [|exact I]. simpl fl_isna.
  destruct (fl_gtb (Fin p) (Fin 0)) eqn:G; [|exact I].
  apply Qltb_lt in G. simpl andb. cbv iota.
  rewrite (fl_div_pos o G). exact I.
Qed.

(** The heatmap as a whole: when the occurrence cells read as finite
    numbers, every normalised rate it plots is a number of [0,1]. *)
Lemma generate_heatmap_normalized_rates (df : list heat_row)
  (ct : crime_type) (col : list fl) :
  (forall r c, In r df -> finite (str_to_float (h_occur r c))) ->
  In (ct, col) (snd (fst (generate_heatmap df))) ->
  Forall unit_value col.
Proof.
  intros Hfin Hin. unfold generate_heatmap in Hin. cbn [fst snd] in Hin.
  apply in_map_iff in Hin as ([c rates] & E & Hin).
  cbn [fst snd] in E. injection E as <- <-.
  apply in_map_iff in Hin as (c' & E & _). injection E as <- <-.
  apply normalize_column_unit_values.
  apply occurrence_rate_finite. apply Forall_map. apply Forall_forall.
  intros r Hr. simpl. apply Hfin. exact Hr.
Qed.



(** The scenario of the specification: a population written with a
    comma. *)
Example str_to_float_population :
  str_to_float (CStr (u "162,820")) = Fin 162820.
Proof. vm_compute; reflexivity. Qed.

(** An all-zero column stays all zero. *)
Example normalize_column_zeros :
  normalize_column [Fin 0; Fin 0; Fin 0] = [Fin 0; Fin 0; Fin 0].
Proof. vm_compute; reflexivity. Qed.

End Rates.

(** ** Numbers written and read back *)

Section Decimal.

Import SeoulService.

Lemma utf8_decode_low (bs : list N) :
  Forall (fun b => (b < 192)%N) bs -> utf8_decode bs = bs.
Proof.
  induction 1 as [|b t Hb _ IH]; [reflexivity|].
  simpl. apply N.ltb_lt in Hb. rewrite Hb, IH. reflexivity.
Qed.

Lemma uint_chars_low (d : Decimal.uint) :
  Forall (fun b => (b < 192)%N) (uint_chars d).
Proof.
  induction d; simpl; constructor; try assumption; reflexivity.
Qed.

Lemma u_string_of_uint (d : Decimal.uint) :
  u (DecimalString.NilZero.string_of_uint d)
  = match d with Decimal.Nil => [48%N] | _ => uint_chars d end.
Proof.
  assert (G : forall d, u (DecimalString.NilEmpty.string_of_uint d) = uint_chars d).
  { intros d0. unfold u.
    assert (E : map Ascii.N_of_ascii
                  (String.list_ascii_of_string (DecimalString.NilEmpty.string_of_uint d0))
                = uint_chars d0).
    { induction d0; simpl; try rewrite IHd0; reflexivity. }
    rewrite E. apply utf8_decode_low. apply uint_chars_low. }
  destruct d; try apply G. reflexivity.
Qed.

Lemma digits_of_N_chars (n : N) : digits_of_N n = uint_chars (N.to_uint n).
Proof.
  unfold digits_of_N. rewrite u_string_of_uint.
  destruct (N.to_uint n) eqn:E; try reflexivity.
  exfalso. destruct n; simpl in E; [discriminate|].
  exact (DecimalPos.Unsigned.to_uint_nonnil _ E).
Qed.

Lemma uint_value_acc (d : Decimal.uint) (p : positive) :
  uint_value (Npos p) d = Npos (Pos.of_uint_acc d p).
Proof.
  revert p. induction d; intros p; cbn [uint_value Pos.of_uint_acc];
    try reflexivity; rewrite <- IHd; f_equal; lia.
Qed.

Lemma uint_value_of_uint (d : Decimal.uint) : uint_value 0 d = N.of_uint d.
Proof.
  unfold N.of_uint.
  induction d; cbn [uint_value Pos.of_uint]; try reflexivity; try exact IHd;
    rewrite <- uint_value_acc; reflexivity.
Qed.

Lemma digitpart_uint (d : Decimal.uint) (acc : N) (n : nat) (prev : bool) :
  d <> Decimal.Nil ->
  exists m, digitpart acc n prev (uint_chars d) = Some (uint_value acc d, m).
Proof.
  revert acc n prev.
  assert (G : forall d acc n, exists m,
             digitpart acc n true (uint_chars d) = Some (uint_value acc d, m)).
  { induction d0; intros acc n; simpl; eauto;
      match goal with |- context [digitpart ?a ?k true _] =>
        destruct (IHd0 a k) as (m & E); exists m; rewrite <- E end;
      f_equal. }
  intros acc n prev H.
  destruct d; try congruence; simpl; apply G.
Qed.

Lemma digitpart_digits (n : N) :
  exists m, digitpart 0 0 false (digits_of_N n) = Some (n, m).
Proof.
  rewrite digits_of_N_chars.
  assert (H : N.to_uint n <> Decimal.Nil).
  { destruct n; simpl; [discriminate|]. apply DecimalPos.Unsigned.to_uint_nonnil. }
  destruct (digitpart_uint 0%N 0%nat false H) as (m & E).
  exists m. rewrite E, uint_value_of_uint, DecimalN.Unsigned.of_to. reflexivity.
Qed.

Lemma replace_delete (c : N) (l : pystr) :
  replace c [] l = filter (fun x => negb (x =? c)%N) l.
Proof.
  unfold replace. induction l as [|x l IH]; simpl; [reflexivity|].
  rewrite IH. destruct (x =? c)%N; reflexivity.
Qed.

Lemma group3_filter (f : N -> bool) (l : pystr) :
  f ch_comma = false -> filter f (group3 l) = filter f l.
Proof.
  intros Hc.
  assert (G : forall n l, (length l <= n)%nat ->
                          filter f (group3 l) = filter f l).
  { induction n as [|n IH]; intros l0 Hl.
    - destruct l0; [reflexivity | simpl in Hl; lia].
    - destruct l0 as [|a [|b [|c [|d r]]]]; try reflexivity.
      change (group3 (a :: b :: c :: d :: r))
        with ([a; b; c; ch_comma] ++ group3 (d :: r)).
      rewrite (filter_app f [a; b; c; ch_comma] (group3 (d :: r))).
      rewrite (IH (d :: r)) by (simpl in *; lia).
      change (a :: b :: c :: d :: r) with ([a; b; c] ++ d :: r).
      rewrite (filter_app f [a; b; c]). f_equal.
      simpl. rewrite Hc. destruct (f a), (f b), (f c); reflexivity. }
  exact (G (length l) l (le_n _)).
Qed.

Lemma filter_all {A} (f : A -> bool) (l : list A) :
  Forall (fun x => f x = true) l -> filter f l = l.
Proof.
  induction 1 as [|x t Hx _ IH]; simpl; [reflexivity|].
  rewrite Hx, IH. reflexivity.
Qed.

Lemma uint_chars_digits (d : Decimal.uint) :
  Forall (fun c => is_digit c = true) (uint_chars d).
Proof. induction d; simpl; constructor; try assumption; reflexivity. Qed.

Lemma digits_of_N_digits (n : N) :
  Forall (fun c => is_digit c = true) (digits_of_N n).
Proof. rewrite digits_of_N_chars. apply uint_chars_digits. Qed.

Lemma digits_of_N_cons (n : N) :
  exists c r, digits_of_N n = c :: r /\ is_digit c = true.
Proof.
  pose proof (digits_of_N_digits n) as F.
  destruct (digitpart_digits n) as (m & E).
  destruct (digits_of_N n) as [|c r]; [discriminate E|].
  inversion F; subst. eauto.
Qed.

Lemma is_digit_range (c : N) : is_digit c = true -> (48 <= c <= 57)%N.
Proof.
  unfold is_digit. rewrite andb_true_iff, !N.leb_le. tauto.
Qed.

(** Removing the commas of a formatted number gives back its digits. *)
Lemma uncomma_format (z : Z) :
  replace ch_comma [] (format_commas z)
  = if (z <? 0)%Z then ch_minus :: digits_of_N (Z.to_N (Z.abs z))
    else digits_of_N (Z.to_N (Z.abs z)).
Proof.
  unfold format_commas.
  set (ds := digits_of_N (Z.to_N (Z.abs z))).
  assert (E : replace ch_comma [] (rev (group3 (rev ds))) = ds).
  { rewrite replace_delete, filter_rev, group3_filter by reflexivity.
    rewrite <- filter_rev, rev_involutive. apply filter_all.
    pose proof (digits_of_N_digits (Z.to_N (Z.abs z))) as F. fold ds in F.
    revert F. apply Forall_impl. intros c Hc.
    apply is_digit_range in Hc. apply negb_true_iff, N.eqb_neq.
    unfold ch_comma. lia. }
  destruct (z <? 0)%Z; [|exact E].
  unfold replace in *. simpl. rewrite E. reflexivity.
Qed.

Lemma strip_by_none (f : N -> bool) (s : pystr) :
  Forall (fun c => f c = false) s -> strip_by f s = s.
Proof.
  intros H. unfold strip_by.
  assert (L : forall t, Forall (fun c => f c = false) t -> lstrip_by f t = t).
  { intros t Ht. destruct Ht as [|c t Hc _]; [reflexivity|].
    simpl. rewrite Hc. reflexivity. }
  rewrite (L s H). rewrite L by (apply Forall_rev; exact H).
  apply rev_involutive.
Qed.

Lemma digit_not_space (c : N) : is_digit c = true -> isspace c = false.
Proof.
  intros H. apply is_digit_range in H. unfold isspace.
  repeat (apply orb_false_iff; split);
    try (apply andb_false_iff; first [left; apply N.leb_gt; lia
                                     | right; apply N.leb_gt; lia]);
    apply N.eqb_neq; lia.
Qed.

Lemma strip_digits (l : pystr) :
  Forall (fun c => is_digit c = true) l -> strip l = l.
Proof.
  intros H. apply (strip_by_none isspace). revert H. apply Forall_impl.
  intros c. apply digit_not_space.
Qed.

Lemma py_int_digits (n : N) : py_int (digits_of_N n) = Some (Z.of_N n).
Proof.
  unfold py_int. rewrite (strip_digits (digits_of_N_digits n)).
  destruct (digitpart_digits n) as (m & E).
  destruct (digits_of_N_cons n) as (c & r & Ec & Hc).
  rewrite Ec in *. apply is_digit_range in Hc.
  destruct (N.eqb_spec c ch_minus) as [->|_]; [unfold ch_minus in Hc; lia|].
  destruct (N.eqb_spec c ch_plus) as [->|_]; [unfold ch_plus in Hc; lia|].
  rewrite E. reflexivity.
Qed.

Lemma py_int_minus_digits (n : N) :
  py_int (ch_minus :: digits_of_N n) = Some (- Z.of_N n)%Z.
Proof.
  unfold py_int.
  assert (S : strip (ch_minus :: digits_of_N n) = ch_minus :: digits_of_N n).
  { apply strip_by_none. constructor; [reflexivity|].
    pose proof (digits_of_N_digits n) as F. revert F. apply Forall_impl.
    intros c. apply digit_not_space. }
  rewrite S. destruct (digitpart_digits n) as (m & E).
  simpl. rewrite E. reflexivity.
Qed.

(** What [int] reads in the text [f"{z:,}"] once the commas are removed. *)
Lemma int_of_formatted (z : Z) :
  int_of_cell (CStr (format_commas z)) = Some z.
Proof.
  unfold int_of_cell. rewrite uncomma_format.
  destruct (Z.ltb_spec z 0).
  - rewrite (strip_by_none isspace).
    + rewrite py_int_minus_digits. f_equal. lia.
    + constructor; [reflexivity|].
      pose proof (digits_of_N_digits (Z.to_N (Z.abs z))) as F.
      revert F. apply Forall_impl. intros c. apply digit_not_space.
  - rewrite (strip_digits (digits_of_N_digits _)), py_int_digits.
    f_equal. lia.
Qed.

Lemma contribution_formatted (z : Z) : contribution (CStr (format_commas z)) = z.
Proof. unfold contribution. rewrite int_of_formatted. reflexivity. Qed.






End Decimal.

(** ** More on the geocode client *)

Section GeocodeErrors.

Import KakaoMapSingleton.

Lemma geocode_try_length (resp : http_result) (l : list json) :
  geocode_try resp = Return l -> (length l <= 1)%nat.
Proof.
  intros H. destruct (geocode_try_shape _ H) as [-> | (fa & geo & ->)];
    simpl; lia.
Qed.

Lemma geocode_raise_request (self : instance) (http : pystr -> http_result)
  (address : pystr) (e : exn) :
  _base_url self <> None ->
  _api_key self <> None ->
  geocode self http address = Raise e -> is_request_exception e = true.
Proof.
  intros Hu Hk. unfold geocode.
  destruct (_base_url self); [|congruence].
  destruct (_api_key self); [|congruence].
  unfold geocode_handlers.
  destruct (geocode_try (http address)) as [l|e0]; [discriminate|].
  destruct (is_request_exception e0) eqn:R; [|discriminate].
  intros H; injection H as <-. exact R.
Qed.

(** X1: a client that has its attributes raises nothing but the
    exceptions of [requests], and returns at most one result. *)
Theorem geocode_raises_only_request_exceptions
  (self : instance) (http : pystr -> http_result) (address : pystr) :
  _base_url self <> None ->
  _api_key self <> None ->
  match geocode self http address with
  | Raise e => is_request_exception e = true
  | Return l => (length l <= 1)%nat
  end.
Proof.
  intros Hu Hk. unfold geocode.
  destruct (_base_url self); [|congruence].
  destruct (_api_key self); [|congruence].
  unfold geocode_handlers.
  destruct (geocode_try (http address)) as [l|e] eqn:E.
  - exact (geocode_try_length _ E).
  - destruct (is_request_exception e) eqn:R; [exact R | simpl; lia].
Qed.

Lemma geocode_raises_only_request_exceptions_witness :
  match geocode (mk_instance 0 (Some (u "key")) (Some base_url))
          (fun _ => Transport_error (u "timeout")) (u "서울중부경찰서") with
  | Raise e => is_request_exception e = true
  | Return l => (length l <= 1)%nat
  end.
Proof.
  apply geocode_raises_only_request_exceptions; simpl; discriminate.
Defined.

(** X2: a failure of the transport and an error status other than 403
    leave [geocode] as exceptions of [requests]; they are not turned
    into an empty result. *)
Theorem geocode_http_error_is_raised
  (key url : pystr) (http : pystr -> http_result) (address : pystr) :
  let client := mk_instance 0 (Some key) (Some url) in
  (forall msg,
      http address = Transport_error msg ->
      geocode client http address = Raise (RequestException msg))
  /\ (forall status body,
      http address = Response status body ->
      (400 <= status < 600)%Z -> status <> 403%Z ->
      geocode client http address = Raise (RequestException (u "HTTPError"))).
Proof.
  intros client. split.
  - intros msg H. unfold client, geocode; simpl. rewrite H. reflexivity.
  - intros status body H Hr Hn. unfold client, geocode; simpl. rewrite H.
    simpl.
    destruct (Z.eqb_spec status 403) as [E|_]; [contradiction|].
    destruct (Z.leb_spec 400 status); [|lia].
    destruct (Z.ltb_spec status 600); [|lia].
    reflexivity.
Qed.

(** X3: only the first document of the answer is used, and a document
    whose coordinates are no numbers is answered like no document at
    all. *)
Theorem geocode_uses_first_document
  (key url : pystr) (status : Z) (doc : json) (rest : list json)
  (others : list (pystr * json)) (address : pystr) :
  let client := mk_instance 0 (Some key) (Some url) in
  let answer docs :=
    fun _ : pystr =>
      Response status (Some (JDict ((u "documents", JList docs) :: others))) in
  geocode client (answer (doc :: rest)) address
  = geocode client (answer [doc]) address
  /\ (forall e, reshape doc = Raise e ->
        status <> 403%Z -> ~ (400 <= status < 600)%Z ->
        geocode client (answer (doc :: rest)) address = Return []).
Proof.
  intros client answer. split.
  - unfold client, answer, geocode, geocode_try; simpl.
    destruct (status =? 403)%Z; [reflexivity|].
    destruct ((400 <=? status) && (status <? 600))%Z; reflexivity.
  - intros e He Hn Hr. unfold client, answer, geocode, geocode_try; simpl.
    destruct (Z.eqb_spec status 403) as [E|_]; [contradiction|].
    destruct ((400 <=? status) && (status <? 600))%Z eqn:B.
    { apply andb_true_iff in B. destruct B as [B1 B2].
      apply Z.leb_le in B1. apply Z.ltb_lt in B2. lia. }
    simpl. unfold dict_get. simpl.
    rewrite He. simpl.
    assert (R : is_request_exception e = false).
    { unfold reshape in He.
      destruct doc; simpl in He; try (injection He as <-; reflexivity).
      destruct (float_of_json (dict_get (u "y") (JNum (Fin 0)) d)) eqn:Y;
        simpl in He.
      - destruct (float_of_json (dict_get (u "x") (JNum (Fin 0)) d)) eqn:X;
          simpl in He; [discriminate|].
        injection He as <-.
        destruct (dict_get (u "x") (JNum (Fin 0)) d); simpl in X;
          try (injection X as <-; reflexivity); try discriminate.
        destruct (py_float s); [discriminate|]. injection X as <-. reflexivity.
      - injection He as <-.
        destruct (dict_get (u "y") (JNum (Fin 0)) d); simpl in Y;
          try (injection Y as <-; reflexivity); try discriminate.
        destruct (py_float s); [discriminate|]. injection Y as <-. reflexivity. }
    rewrite R. reflexivity.
Qed.

End GeocodeErrors.

(** ** More on the singleton and its key *)

Section SingletonKey.

Import KakaoMapSingleton.

Lemma dict_lookup_app_defined {V} (k : pystr) (v : V)
  (d d' : list (pystr * V)) :
  dict_lookup k d = Some v -> dict_lookup k (d ++ d') = Some v.
Proof.
  induction d as [|[k0 v0] d IH]; simpl; [discriminate|].
  destruct (eqb k k0); auto.
Qed.

Lemma load_dotenv_keeps (file env : list (pystr * pystr)) (k v : pystr) :
  dict_lookup k env = Some v -> dict_lookup k (load_dotenv file env) = Some v.
Proof.
  revert env. induction file as [|[k0 v0] file IH]; intros env H; simpl;
    [exact H|].
  apply IH. destruct (dict_lookup k0 env); [exact H|].
  apply dict_lookup_app_defined. exact H.
Qed.

(** X4: a key that the environment of the process defines is the key
    used: the [.env] file, loaded or not, does not replace it, and
    [KAKAO_REST_API_KEY] is preferred to [KAKAO_MAP_API_KEY]. *)
Theorem environment_key_is_preferred
  (dotenv : option (list (pystr * pystr))) (p : process)
  (c : N) (key : pystr) :
  dict_lookup KAKAO_REST_API_KEY (environ p) = Some (c :: key) ->
  fst (_retrieve_api_key dotenv p) = Return (c :: key).
Proof.
  intros H. unfold _retrieve_api_key.
  assert (E : dict_lookup KAKAO_REST_API_KEY
                (if _env_loaded p then environ p
                 else loaded dotenv (environ p)) = Some (c :: key)).
  { destruct (_env_loaded p); [exact H|].
    destruct dotenv as [file|]; simpl; [|exact H].
    apply load_dotenv_keeps. exact H. }
  unfold getenv_or. rewrite E. reflexivity.
Qed.

Lemma environment_key_is_preferred_witness :
  fst (_retrieve_api_key
         (Some [(KAKAO_REST_API_KEY, u "from-file")])
         (initial_process [(KAKAO_MAP_API_KEY, u "map");
                           (KAKAO_REST_API_KEY, u "rest")]))
  = Return (u "rest").
Proof.
  apply (@environment_key_is_preferred
           (Some [(KAKAO_REST_API_KEY, u "from-file")])
           (initial_process [(KAKAO_MAP_API_KEY, u "map");
                             (KAKAO_REST_API_KEY, u "rest")])
           114%N (u "est")).
  vm_compute. reflexivity.
Defined.

Lemma new_counters (dotenv : option (list (pystr * pystr))) (p : process) :
  let p' := snd (__new__ dotenv p) in
  match _instance p with
  | Some _ => p' = p
  | None =>
      _instance p' <> None
      /\ allocated p' = S (allocated p)
      /\ key_reads p' = S (key_reads p)
  end.
Proof.
  unfold __new__. destruct (_instance p); [reflexivity|].
  unfold _retrieve_api_key. cbn [_instance _env_loaded environ allocated key_reads].
  destruct (getenv_or _ _ _) as [[|c k]|]; simpl; repeat split; discriminate.
Qed.

Lemma constructions_counters (dotenvs : list (option (list (pystr * pystr))))
  (p : process) :
  let p' := snd (constructions dotenvs p) in
  match _instance p with
  | Some _ => p' = p
  | None =>
      match dotenvs with
      | [] => p' = p
      | _ :: _ =>
          _instance p' <> None
          /\ allocated p' = S (allocated p)
          /\ key_reads p' = S (key_reads p)
      end
  end.
Proof.
  revert p. induction dotenvs as [|d ds IH]; intros p; simpl.
  - destruct (_instance p); reflexivity.
  - pose proof (new_counters d p) as N. simpl in N.
    destruct (__new__ d p) as [r p1] eqn:E. simpl in N.
    specialize (IH p1). simpl in IH.
    destruct (constructions ds p1) as [rs p2] eqn:E2. simpl in *.
    destruct (_instance p) eqn:I.
    + subst p1. rewrite I in IH. exact IH.
    + destruct N as (N1 & N2 & N3).
      destruct (_instance p1) eqn:I1; [|congruence].
      subst p2. rewrite I1. repeat split; try assumption.
Qed.

(** X5: however many times the client is constructed in a process, and
    whether or not the first construction succeeds, one object is
    allocated and the key is read once. *)
Theorem singleton_allocates_and_reads_once
  (d : option (list (pystr * pystr)))
  (dotenvs : list (option (list (pystr * pystr))))
  (env : list (pystr * pystr)) :
  let p := snd (constructions (d :: dotenvs) (initial_process env)) in
  allocated p = 1%nat /\ key_reads p = 1%nat.
Proof.
  pose proof (constructions_counters (d :: dotenvs) (initial_process env)) as H.
  cbv zeta in *. cbn [initial_process _instance allocated key_reads] in H.
  destruct H as (_ & H1 & H2). split; assumption.
Qed.

End SingletonKey.

(** ** More on the district resolver *)

Section ResolverFailures.

Import KakaoMapSingleton SeoulMethod.

Lemma endswith_basic_rule (station_name : pystr) :
  endswith [ch_seo] station_name = true ->
  basic_rule station_name = replace ch_seo [ch_gu] station_name.
Proof. intros H. unfold basic_rule. rewrite H. reflexivity. Qed.

Lemma kakao_maps_queries (self : method) (station_name : pystr) :
  snd (_get_district_from_kakao_maps self station_name)
  = [station_name ++ u " 서울"].
Proof. reflexivity. Qed.

Lemma kakao_maps_without_result (self : method) (station_name : pystr) :
  (forall l, geocode (kakao_map self) (http self) (station_name ++ u " 서울")
             = Return l -> l = []) ->
  fst (_get_district_from_kakao_maps self station_name)
  = basic_rule station_name.
Proof.
  intros H. unfold _get_district_from_kakao_maps. cbn [fst].
  destruct (geocode (kakao_map self) (http self) (station_name ++ u " 서울"))
    as [l|e] eqn:E; [|reflexivity].
  rewrite (H l eq_refl). reflexivity.
Qed.

(** X6: [station_to_district] raises in one case only, a name ending
    with 서 when [cctv.csv] does not exist; the geocoder has not been
    called then.  No failure of the geocoder leaves the function. *)
Theorem station_to_district_raises_only_without_cctv
  (self : method) (station_name : pystr) (e : exn) :
  (fst (station_to_district self station_name) = Raise e <->
   endswith [ch_seo] station_name = true
   /\ cctv_csv self = None
   /\ e = FileNotFoundError (u "cctv.csv"))
  /\ (fst (station_to_district self station_name) = Raise e ->
      snd (station_to_district self station_name) = []).
Proof.
  unfold station_to_district.
  destruct (endswith [ch_seo] station_name) eqn:He.
  - destruct (cctv_csv self) as [valid|] eqn:Hc.
    + destruct (in_column _ valid); simpl; split;
        try (split; [discriminate | intros (_ & H & _); discriminate H]);
        discriminate.
    + simpl. split; [|reflexivity]. split.
      * intros H; injection H as <-. auto.
      * intros (_ & _ & ->). reflexivity.
  - simpl. split; [|discriminate].
    split; [discriminate | intros (H & _); discriminate H].
Qed.

(** X7: when [cctv.csv] exists and the geocoder gives no result, whether
    it raises or returns the empty list, the district is the name
    rewritten by the basic rule. *)
Theorem station_to_district_without_geocoder
  (self : method) (station_name : pystr) (valid : list (option pystr)) :
  cctv_csv self = Some valid ->
  (forall l, geocode (kakao_map self) (http self) (station_name ++ u " 서울")
             = Return l -> l = []) ->
  fst (station_to_district self station_name)
  = Return (basic_rule station_name).
Proof.
  intros Hc Hg. unfold station_to_district. rewrite Hc.
  pose proof (kakao_maps_without_result self station_name Hg) as K.
  destruct (_get_district_from_kakao_maps self station_name) as [d calls].
  simpl in K. subst d.
  destruct (endswith [ch_seo] station_name) eqn:He; [|reflexivity].
  destruct (in_column _ valid); [|reflexivity].
  simpl. rewrite (endswith_basic_rule _ He). reflexivity.
Qed.

Lemma station_to_district_without_geocoder_witness :
  fst (station_to_district
         (mk_method (mk_instance 0 (Some (u "key")) (Some base_url))
            (fun _ => Transport_error (u "timeout"))
            (Some [Some (u "강남구")]))
         (u "수서서"))
  = Return (u "수구구").
Proof.
  apply (@station_to_district_without_geocoder
           (mk_method (mk_instance 0 (Some (u "key")) (Some base_url))
              (fun _ => Transport_error (u "timeout"))
              (Some [Some (u "강남구")]))
           (u "수서서") [Some (u "강남구")]).
  - reflexivity.
  - intros l H. vm_compute in H. discriminate H.
Defined.

(** X8: where the code and the rewrite of the last character agree: a
    name whose only 서 is its last character and whose rewrite is a
    district of the CCTV table is answered without a geocode call. *)
Theorem station_to_district_single_seo
  (self : method) (station_name : pystr) (valid : list (option pystr)) :
  cctv_csv self = Some valid ->
  endswith [ch_seo] station_name = true ->
  ~ In ch_seo (removelast station_name) ->
  in_column (naive_rewrite station_name) valid = true ->
  station_to_district self station_name
  = (Return (naive_rewrite station_name), []).
Proof.
  intros Hc He Hn Hv.
  rewrite <- (replace_single_seo _ He Hn) in *.
  apply (station_to_district_known _ _ Hc He Hv).
Qed.

Lemma station_to_district_single_seo_witness :
  station_to_district
    (mk_method (mk_instance 0 None None) (fun _ => Transport_error [])
       (Some [None; Some (u "마포구")]))
    (u "마포서")
  = (Return (u "마포구"), []).
Proof.
  apply (@station_to_district_single_seo
           (mk_method (mk_instance 0 None None) (fun _ => Transport_error [])
              (Some [None; Some (u "마포구")]))
           (u "마포서") [None; Some (u "마포구")]).
  - reflexivity.
  - vm_compute. reflexivity.
  - vm_compute. intros [H|[H|[]]]; discriminate H.
  - vm_compute. reflexivity.
Defined.

(** *** The regular expression *)

Lemma gu_is_hangul : is_hangul ch_gu = true.
Proof. reflexivity. Qed.

Lemma match_tail_complete (t b : pystr) :
  Forall (fun c => is_hangul c = true) t ->
  match_tail (t ++ ch_gu :: b) <> None.
Proof.
  induction 1 as [|c t Hc _ IH]; cbn [app match_tail].
  - rewrite gu_is_hangul, N.eqb_refl. destruct (match_tail b); discriminate.
  - rewrite Hc. destruct (match_tail (t ++ ch_gu :: b)); [discriminate|].
    congruence.
Qed.

Lemma re_search_gu_complete (a h b : pystr) :
  h <> [] ->
  Forall (fun c => is_hangul c = true) h ->
  re_search_gu (a ++ h ++ ch_gu :: b) <> None.
Proof.
  intros Hne HF. induction a as [|x a IH].
  - destruct HF as [|c t Hc Ht]; [congruence|].
    cbn [app re_search_gu match_here]. rewrite Hc.
    pose proof (match_tail_complete b Ht) as M.
    destruct (match_tail (t ++ ch_gu :: b)); [discriminate | congruence].
  - cbn [app re_search_gu].
    destruct (match_here (x :: a ++ h ++ ch_gu :: b)); [discriminate|].
    exact IH.
Qed.

Lemma startswith_app (p s : pystr) :
  startswith p s = true -> exists b, s = p ++ b.
Proof.
  revert s. induction p as [|x p IH]; intros s; simpl.
  - exists s; reflexivity.
  - destruct s as [|y s]; [discriminate|].
    rewrite andb_true_iff, N.eqb_eq. intros [-> H].
    destruct (IH s H) as (b & ->). exists b; reflexivity.
Qed.

Lemma contains_app (p s : pystr) :
  contains p s = true -> exists a b, s = a ++ p ++ b.
Proof.
  induction s as [|y s IH]; cbn [contains]; rewrite orb_true_iff.
  - intros [H|H]; [|discriminate].
    destruct (startswith_app _ _ H) as (b & ->). exists [], b; reflexivity.
  - intros [H|H].
    + destruct (startswith_app _ _ H) as (b & ->). exists [], b; reflexivity.
    + destruct (IH H) as (a & b & ->). exists (y :: a), b; reflexivity.
Qed.

(** X9: the regular expression [([가-힣]+구)] finds a match in an
    address exactly when the address has a Hangul syllable followed,
    after Hangul syllables only, by 구; the match is a run of Hangul
    syllables of the address that ends with 구. *)
Theorem re_search_gu_finds_hangul_run (s : pystr) :
  ((exists m, re_search_gu s = Some m) <->
   exists a h b, h <> [] /\ Forall (fun c => is_hangul c = true) h
                 /\ s = a ++ h ++ ch_gu :: b)
  /\ forall m, re_search_gu s = Some m ->
       Forall (fun c => is_hangul c = true) m
       /\ (exists t, t <> [] /\ m = t ++ [ch_gu])
       /\ exists a b, s = a ++ m ++ b.
Proof.
  assert (S : forall m, re_search_gu s = Some m ->
       Forall (fun c => is_hangul c = true) m
       /\ (exists t, t <> [] /\ m = t ++ [ch_gu])
       /\ exists a b, s = a ++ m ++ b).
  { intros m H. destruct (re_search_gu_sound _ H) as (H1 & H2 & H3).
    split; [exact H2|]. split; [exact H1|]. exact (contains_app _ _ H3). }
  split; [|exact S]. split.
  - intros (m & H). destruct (S m H) as (HF & (t & Hne & ->) & a & b & ->).
    exists a, t, b. split; [exact Hne|]. split.
    + apply Forall_app in HF. tauto.
    + rewrite <- app_assoc. reflexivity.
  - intros (a & h & b & Hne & HF & ->).
    pose proof (re_search_gu_complete a b Hne HF) as C.
    destruct (re_search_gu (a ++ h ++ ch_gu :: b)) as [m|]; [eauto | congruence].
Qed.

End ResolverFailures.

(** ** Parts of an address *)

Section AddressParts.

Import KakaoMapSingleton SeoulMethod SeoulService.

Lemma split_cons (c : N) (s : pystr) :
  split (c :: s)
  = if isspace c then split s
    else
      match s with
      | c' :: _ =>
          if isspace c' then [c] :: split s
          else
            match split s with
            | w :: ws => (c :: w) :: ws
            | [] => [[c]]
            end
      | [] => [[c]]
      end.
Proof. reflexivity. Qed.

(** The parts [split] gives are not empty and hold no whitespace. *)
Lemma split_parts (s : pystr) :
  Forall (fun w => w <> [] /\ Forall (fun c => isspace c = false) w) (split s).
Proof.
  induction s as [|c s IH]; [constructor|].
  rewrite split_cons. destruct (isspace c) eqn:Hc; [exact IH|].
  assert (One : [c] <> [] /\ Forall (fun c => isspace c = false) [c]).
  { split; [discriminate | repeat constructor; exact Hc]. }
  destruct s as [|c' s']; [repeat constructor; tauto|].
  destruct (isspace c'); [constructor; assumption|].
  destruct (split (c' :: s')) as [|w ws]; [repeat constructor; tauto|].
  inversion IH as [|? ? [Hw Fw] Hws]; subst.
  constructor; [|exact Hws].
  split; [discriminate | constructor; assumption].
Qed.

Lemma last_is_endswith (c : N) (s : pystr) : last_is c s = endswith [c] s.
Proof.
  unfold last_is, endswith. simpl rev.
  destruct (rev s) as [|x r]; [reflexivity|].
  simpl. rewrite andb_true_r. apply N.eqb_sym.
Qed.

Lemma component_types (part : pystr) (types : list pystr) :
  json_get (u "types") (JList []) (address_component part types)
  = Return (JList (map JStr types)).
Proof. vm_compute. reflexivity. Qed.

Lemma component_long_name (part : pystr) (types : list pystr) :
  json_get (u "long_name") (JStr []) (address_component part types)
  = Return (JStr part).
Proof. vm_compute. reflexivity. Qed.

Lemma search_gu_component (part : pystr) (rest : list json) :
  endswith [ch_gu] part = true ->
  search_components
    (address_component part
       [u "sublocality_level_1"; u "administrative_area_level_2"] :: rest)
  = Return (Some part).
Proof.
  intros H. cbn [search_components].
  rewrite component_types, component_long_name. cbn [bind_outcome].
  replace (json_in (u "sublocality_level_1")
             (JList (map JStr [u "sublocality_level_1";
                               u "administrative_area_level_2"])))
    with (Return true) by (vm_compute; reflexivity).
  cbn [bind_outcome json_in]. rewrite H.
  destruct (contains [ch_gu] part); reflexivity.
Qed.

Lemma search_other_component (part : pystr) (rest : list json) :
  search_components
    (address_component part [u "administrative_area_level_1"] :: rest)
  = search_components rest.
Proof.
  cbn [search_components].
  rewrite component_types. cbn [bind_outcome].
  replace (json_in (u "sublocality_level_1")
             (JList (map JStr [u "administrative_area_level_1"])))
    with (Return false) by (vm_compute; reflexivity).
  cbn [bind_outcome].
  replace (json_in (u "administrative_area_level_2")
             (JList (map JStr [u "administrative_area_level_1"])))
    with (Return false) by (vm_compute; reflexivity).
  reflexivity.
Qed.

Lemma search_components_of (parts : list pystr) :
  search_components (components_of parts)
  = Return (hd_error (filter (last_is ch_gu) parts)).
Proof.
  induction parts as [|part rest IH]; [reflexivity|].
  cbn [components_of filter]. rewrite last_is_endswith.
  destruct (endswith [ch_gu] part) eqn:E.
  - rewrite (@search_gu_component part (components_of rest) E). reflexivity.
  - destruct (endswith [ch_si] part || endswith [ch_do] part); [|exact IH].
    rewrite search_other_component. exact IH.
Qed.

(** X10: the components [_parse_address_components] builds from a
    document name, to the loop of [_get_district_from_kakao_maps], the
    first part of the address that ends with 구; this is the part the
    inline extraction of [preprocess] takes from the same address. *)
Theorem parsed_components_name_first_gu
  (d : list (pystr * json)) (s : pystr) :
  dict_get (u "address_name") (JStr []) d = JStr s ->
  (let? components := _parse_address_components (JDict d) in
   search_components components)
  = Return (hd_error (filter (last_is ch_gu) (split s)))
  /\ gu_of_address (JStr s)
     = Return (match hd_error (filter (last_is ch_gu) (split s)) with
               | Some g => g
               | None => []
               end).
Proof.
  intros H. unfold _parse_address_components, gu_of_address.
  cbn [json_get bind_outcome]. rewrite H. cbn [truthy].
  destruct s as [|c s].
  - split; reflexivity.
  - cbn [eqb negb bind_outcome]. rewrite search_components_of.
    split; [reflexivity|].
    destruct (filter (last_is ch_gu) (split (c :: s))); reflexivity.
Qed.

Lemma parsed_components_name_first_gu_witness :
  (let? components :=
     _parse_address_components
       (JDict [(u "address_name", JStr (u "서울특별시 강남구 방배동"))]) in
   search_components components)
  = Return (Some (u "강남구"))
  /\ gu_of_address (JStr (u "서울특별시 강남구 방배동")) = Return (u "강남구").
Proof.
  apply (@parsed_components_name_first_gu
           [(u "address_name", JStr (u "서울특별시 강남구 방배동"))]
           (u "서울특별시 강남구 방배동")).
  vm_compute. reflexivity.
Defined.

End AddressParts.

(** ** The districts of the stations in [preprocess] *)

Section StationDistricts.

Import KakaoMapSingleton SeoulMethod SeoulService.

Lemma reshape_full (doc r : json) :
  reshape doc = Return r -> exists fa lat lng, r = geocoded fa lat lng.
Proof.
  unfold reshape. destruct doc; simpl; try discriminate.
  destruct (float_of_json (dict_get (u "y") (JNum (Fin 0)) d)); simpl;
    try discriminate.
  destruct (float_of_json (dict_get (u "x") (JNum (Fin 0)) d)); simpl;
    try discriminate.
  intros H; injection H as <-. eexists _, _, _. reflexivity.
Qed.

Lemma geocode_try_full (resp : http_result) (l : list json) :
  geocode_try resp = Return l ->
  l = [] \/ exists fa lat lng, l = [geocoded fa lat lng].
Proof.
  destruct resp as [msg | status body]; simpl; try discriminate.
  destruct (status =? 403)%Z.
  - destruct (response_json body) as [j|]; simpl; try discriminate.
    destruct (json_get (u "message") (JStr (u "Forbidden")) j); simpl;
      discriminate.
  - destruct ((400 <=? status) && (status <? 600))%Z; try discriminate.
    destruct (response_json body) as [j|]; simpl; try discriminate.
    destruct (json_get (u "documents") JNull j) as [docs|]; simpl;
      try discriminate.
    destruct (truthy docs).
    + destruct docs as [| | | |[|doc docs]|]; try discriminate.
      destruct (reshape doc) as [r|] eqn:E; simpl; try discriminate.
      intros H; injection H as <-. right.
      destruct (reshape_full doc E) as (fa & lat & lng & ->). eauto.
    + intros H; injection H as <-. left; reflexivity.
Qed.

Lemma geocode_full (self : instance) (http : pystr -> http_result)
  (address : pystr) (l : list json) :
  geocode self http address = Return l ->
  l = [] \/ exists fa lat lng, l = [geocoded fa lat lng].
Proof.
  unfold geocode.
  destruct (_base_url self); [|discriminate].
  destruct (_api_key self); [|discriminate].
  unfold geocode_handlers.
  destruct (geocode_try (http address)) as [l0|e] eqn:E.
  - intros H; injection H as <-. exact (geocode_try_full _ E).
  - destruct (is_request_exception e); [discriminate|].
    intros H; injection H as <-. left; reflexivity.
Qed.

Lemma lookup_station_raise (kmaps : instance) (http : pystr -> http_result)
  (name : pystr) (e : exn) :
  geocode kmaps http name = Raise e -> lookup_station kmaps http name = Raise e.
Proof. intros H. unfold lookup_station. rewrite H. reflexivity. Qed.

Lemma lookup_station_return (kmaps : instance) (http : pystr -> http_result)
  (name : pystr) (l : list json) :
  geocode kmaps http name = Return l ->
  exists fa lat lng,
    lookup_station kmaps http name = Return (fa, lat, lng)
    /\ (l = [] -> fa = JStr []).
Proof.
  intros H. unfold lookup_station. rewrite H. cbn [bind_outcome].
  destruct (geocode_full _ _ _ H) as [-> | (fa & lat & lng & ->)].
  - eexists _, _, _. split; [reflexivity | reflexivity].
  - exists fa, (JNum lat), (JNum lng). split; [|discriminate].
    vm_compute. reflexivity.
Qed.

Lemma lookup_stations_return (kmaps : instance) (http : pystr -> http_result)
  (names : list pystr) (l : list (json * json * json)) :
  fst (lookup_stations kmaps http names) = Return l ->
  snd (lookup_stations kmaps http names) = names
  /\ length l = length names.
Proof.
  revert l. induction names as [|name rest IH]; intros l; simpl.
  - intros H; injection H as <-. auto.
  - destruct (lookup_station kmaps http name) as [r|e]; [|discriminate].
    destruct (lookup_stations kmaps http rest) as [rs calls].
    simpl in *. destruct rs as [l'|e]; [|discriminate].
    simpl. intros H; injection H as <-.
    destruct (IH l' eq_refl) as [-> E]. simpl. auto.
Qed.

Lemma map_outcome_return {A B} (f : A -> outcome B) (l : list A)
  (ys : list B) :
  map_outcome f l = Return ys -> Forall2 (fun x y => f x = Return y) l ys.
Proof.
  revert ys. induction l as [|x t IH]; intros ys; simpl.
  - intros H; injection H as <-. constructor.
  - destruct (f x) as [y|e] eqn:E; simpl; [|discriminate].
    destruct (map_outcome f t) as [ys'|e]; simpl; [|discriminate].
    intros H; injection H as <-. constructor; auto.
Qed.

Lemma station_names_return (col : list (option pystr)) (names : list pystr) :
  station_names col = Return names ->
  exists stations,
    col = map Some stations /\ names = map station_query stations.
Proof.
  unfold station_names. intros H. apply map_outcome_return in H.
  induction H as [|x y l ys Hxy _ IH].
  - exists []. auto.
  - destruct IH as (stations & -> & ->).
    destruct x as [s|]; [|discriminate].
    injection Hxy as <-. exists (s :: stations). auto.
Qed.

Lemma station_names_strings (stations : list pystr) :
  station_names (map Some stations) = Return (map station_query stations).
Proof.
  unfold station_names. induction stations as [|s t IH]; [reflexivity|].
  cbn [map map_outcome bind_outcome]. cbn [map] in IH. rewrite IH.
  reflexivity.
Qed.

Lemma gu_of_address_part (addr : json) (g : pystr) :
  gu_of_address addr = Return g -> district_part g.
Proof.
  unfold gu_of_address.
  destruct (truthy addr); [|intros H; injection H as <-; left; reflexivity].
  destruct addr as [| | |s| |]; try discriminate.
  destruct (filter (last_is ch_gu) (split s)) as [|g0 gs] eqn:F;
    intros H; injection H as <-; [left; reflexivity|].
  right.
  assert (I : In g0 (filter (last_is ch_gu) (split s)))
    by (rewrite F; left; reflexivity).
  apply filter_In in I. destruct I as [I L].
  rewrite last_is_endswith in L. split; [exact L|].
  pose proof (split_parts s) as P. rewrite Forall_forall in P.
  exact (proj2 (P _ I)).
Qed.

(** X11: when the lookup of lines 74-128 returns, every 관서명 is a
    string, [geocode] has been called once for each station, in order,
    with 서울, the name without its last character, and 경찰서; there
    is one district for each station, and a district is empty or a
    part of an address, free of whitespace, that ends with 구. *)
Theorem station_districts_one_per_station
  (kmaps : instance) (http : pystr -> http_result)
  (col : list (option pystr)) (gu_names : list pystr) :
  fst (station_districts kmaps http col) = Return gu_names ->
  length gu_names = length col
  /\ Forall district_part gu_names
  /\ exists stations,
      col = map Some stations
      /\ snd (station_districts kmaps http col)
         = map station_query stations.
Proof.
  unfold station_districts.
  destruct (station_names col) as [names|e] eqn:N; [|discriminate].
  destruct (station_names_return _ N) as (stations & -> & ->).
  pose proof (@lookup_stations_return kmaps http (map station_query stations))
    as L.
  destruct (lookup_stations kmaps http (map station_query stations))
    as [found calls]. simpl in L |- *.
  destruct found as [recs|e]; [|discriminate]. simpl.
  destruct (L recs eq_refl) as [-> Len].
  intros H. apply map_outcome_return in H.
  split; [|split].
  - apply Forall2_length in H. rewrite <- H.
    rewrite !length_map in *. exact Len.
  - clear Len L N. induction H as [|a g l gs Hag _ IH]; constructor;
      [exact (gu_of_address_part _ Hag) | exact IH].
  - exists stations. split; reflexivity.
Qed.

Lemma station_districts_one_per_station_witness :
  length [u "강남구"] = length [Some (u "수서서")]
  /\ Forall district_part [u "강남구"]
  /\ exists stations,
      [Some (u "수서서")] = map Some stations
      /\ snd (station_districts (kakao_map bangbae_method)
                (http bangbae_method) [Some (u "수서서")])
         = map station_query stations.
Proof.
  apply (@station_districts_one_per_station
           (kakao_map bangbae_method) (http bangbae_method)
           [Some (u "수서서")] [u "강남구"]).
  vm_compute. reflexivity.
Defined.

Lemma lookup_stations_raise (kmaps : instance) (http : pystr -> http_result)
  (names : list pystr) :
  _base_url kmaps <> None ->
  _api_key kmaps <> None ->
  (exists name e, In name names /\ geocode kmaps http name = Raise e) ->
  exists e, fst (lookup_stations kmaps http names) = Raise e
            /\ is_request_exception e = true.
Proof.
  intros Hu Hk. induction names as [|name rest IH];
    intros (n & e & Hin & Hn); [destruct Hin|].
  cbn [lookup_stations].
  destruct (geocode kmaps http name) as [l|e0] eqn:G.
  - destruct (lookup_station_return _ _ _ G) as (fa & lat & lng & -> & _).
    destruct Hin as [<-|Hin]; [congruence|].
    destruct IH as (e1 & E1 & R1); [eauto|].
    destruct (lookup_stations kmaps http rest) as [rs calls].
    simpl in E1. subst rs. exists e1. auto.
  - rewrite (lookup_station_raise _ _ _ G). exists e0. split; [reflexivity|].
    exact (@geocode_raise_request kmaps http name e0 Hu Hk G).
Qed.

(** X12: a failure of the transport at any station ends the lookup of
    [preprocess] with an exception of [requests]; no district is
    assigned. *)
Theorem station_districts_transport_failure
  (kmaps : instance) (http : pystr -> http_result)
  (stations : list pystr) (s msg : pystr) :
  _base_url kmaps <> None ->
  _api_key kmaps <> None ->
  In s stations ->
  http (station_query s) = Transport_error msg ->
  exists e,
    fst (station_districts kmaps http (map Some stations)) = Raise e
    /\ is_request_exception e = true.
Proof.
  intros Hu Hk Hin Hs. unfold station_districts.
  rewrite station_names_strings.
  destruct (@lookup_stations_raise kmaps http (map station_query stations)
              Hu Hk) as (e & E & R).
  - exists (station_query s), (RequestException msg). split.
    + apply in_map. exact Hin.
    + unfold geocode.
      destruct (_base_url kmaps); [|congruence].
      destruct (_api_key kmaps); [|congruence].
      rewrite Hs. reflexivity.
  - destruct (lookup_stations kmaps http (map station_query stations))
      as [found calls].
    simpl in E. subst found. exists e. auto.
Qed.

Lemma station_districts_transport_failure_witness :
  exists e,
    fst (station_districts (mk_instance 0 (Some (u "key")) (Some base_url))
           (fun _ => Transport_error (u "timeout"))
           (map Some [u "중부서"; u "수서서"])) = Raise e
    /\ is_request_exception e = true.
Proof.
  apply (@station_districts_transport_failure
           (mk_instance 0 (Some (u "key")) (Some base_url))
           (fun _ => Transport_error (u "timeout"))
           [u "중부서"; u "수서서"] (u "수서서") (u "timeout")).
  - discriminate.
  - discriminate.
  - right; left; reflexivity.
  - reflexivity.
Defined.

End StationDistricts.

(** ** The order of strings *)

Lemma ltb_irrefl (a : pystr) : ltb a a = false.
Proof.
  induction a as [|x a IH]; simpl; [reflexivity|].
  rewrite N.ltb_irrefl, N.eqb_refl. exact IH.
Qed.

Lemma ltb_trans (a b c : pystr) :
  ltb a b = true -> ltb b c = true -> ltb a c = true.
Proof.
  revert b c. induction a as [|x a IH]; intros [|y b] [|z c]; simpl;
    try discriminate; try reflexivity.
  destruct (N.ltb_spec x y) as [Hxy|Hxy].
  - intros _. destruct (N.ltb_spec y z) as [Hyz|Hyz].
    + intros _. destruct (N.ltb_spec x z); [reflexivity | lia].
    + destruct (N.eqb_spec y z) as [->|_]; [|discriminate].
      intros _. destruct (N.ltb_spec x z); [reflexivity | lia].
  - destruct (N.eqb_spec x y) as [->|_]; [|discriminate].
    intros Hab. destruct (N.ltb_spec y z); [reflexivity|].
    destruct (N.eqb_spec y z) as [->|_]; [|discriminate].
    apply IH. exact Hab.
Qed.

Lemma ltb_connected (a b : pystr) :
  ltb a b = false -> ltb b a = false -> a = b.
Proof.
  revert b. induction a as [|x a IH]; intros [|y b]; simpl;
    try discriminate; try reflexivity.
  destruct (N.ltb_spec x y) as [Hxy|Hxy]; [discriminate|].
  destruct (N.ltb_spec y x) as [Hyx|Hyx]; [discriminate|].
  assert (x = y) by lia. subst y. rewrite N.eqb_refl.
  intros H1 H2. f_equal. apply IH; assumption.
Qed.

Lemma leb_total (a b : pystr) : leb a b = false -> leb b a = true.
Proof.
  unfold leb. rewrite negb_false_iff, negb_true_iff. intros H.
  destruct (ltb a b) eqn:E; [|reflexivity].
  pose proof (ltb_trans _ _ _ E H) as C. rewrite ltb_irrefl in C.
  discriminate.
Qed.

Lemma leb_trans (a b c : pystr) :
  leb a b = true -> leb b c = true -> leb a c = true.
Proof.
  unfold leb. rewrite !negb_true_iff. intros Hba Hcb.
  destruct (ltb c a) eqn:Hca; [|reflexivity].
  destruct (ltb a b) eqn:Hab.
  - rewrite (ltb_trans _ _ _ Hca Hab) in Hcb. discriminate.
  - rewrite (ltb_connected _ _ Hab Hba) in Hca. congruence.
Qed.

Lemma leb_neq_ltb (a b : pystr) :
  leb a b = true -> a <> b -> ltb a b = true.
Proof.
  unfold leb. rewrite negb_true_iff. intros H Hne.
  destruct (ltb a b) eqn:E; [reflexivity|].
  elim Hne. apply ltb_connected; assumption.
Qed.

(** ** More on duplicate districts *)

Section MergeOrder.

Import SeoulService.

Lemma insert_key_In (x y : pystr) (l : list pystr) :
  In y (insert_key x l) -> y = x \/ In y l.
Proof.
  intros H. apply (Permutation_in _ (insert_key_perm x l)) in H.
  destruct H; auto.
Qed.

Lemma insert_key_ascending (x : pystr) (l : list pystr) :
  ascending l -> ascending (insert_key x l).
Proof.
  induction 1 as [|y t Ht IH Hy]; simpl.
  - repeat constructor.
  - destruct (leb x y) eqn:E.
    + constructor; [constructor; assumption|].
      constructor; [exact E|].
      rewrite Forall_forall in *. intros z Hz.
      apply (leb_trans _ _ _ E). auto.
    + constructor; [exact IH|].
      rewrite Forall_forall in *. intros z Hz.
      destruct (insert_key_In _ _ _ Hz) as [->|Hz'];
        [apply leb_total; exact E | auto].
Qed.

Lemma sort_keys_ascending (l : list pystr) : ascending (sort_keys l).
Proof.
  induction l as [|x t IH]; simpl; [constructor|].
  apply insert_key_ascending. exact IH.
Qed.

Lemma sort_keys_fixed (l : list pystr) : ascending l -> sort_keys l = l.
Proof.
  induction 1 as [|y t Ht IH Hy]; [reflexivity|].
  change (sort_keys (y :: t)) with (insert_key y (sort_keys t)).
  rewrite IH.
  destruct t as [|z t']; [reflexivity|].
  simpl. inversion Hy as [|? ? Hz _]; subst. rewrite Hz. reflexivity.
Qed.

Lemma unique_fixed (l : list pystr) : NoDup l -> unique l = l.
Proof.
  induction 1 as [|x t Hx _ IH]; simpl; [reflexivity|].
  rewrite IH. f_equal.
  apply forallb_filter_id. apply forallb_forall. intros y Hy.
  apply negb_true_iff, eqb_neq. intros ->. contradiction.
Qed.

Lemma group_keys_fixed (ncols : nat) (df : list crime_row) :
  group_keys (_merge_duplicate_gu ncols df) = group_keys df.
Proof.
  unfold group_keys at 1. rewrite merge_keys.
  rewrite (unique_fixed (NoDup_group_keys df)).
  apply sort_keys_fixed. apply sort_keys_ascending.
Qed.

Lemma filter_map_other {A} (key : A -> pystr) (f : pystr -> A)
  (keys : list pystr) (k : pystr) :
  (forall x, key (f x) = x) ->
  ~ In k keys ->
  filter (fun r => eqb (key r) k) (map f keys) = [].
Proof.
  intros Hk. induction keys as [|y t IH]; intros Hn; [reflexivity|].
  simpl. rewrite Hk.
  destruct (eqb y k) eqn:E.
  - apply eqb_eq in E. subst y. elim Hn. left; reflexivity.
  - apply IH. intros H. apply Hn. right; exact H.
Qed.

Lemma filter_map_key {A} (key : A -> pystr) (f : pystr -> A)
  (keys : list pystr) (k : pystr) :
  (forall x, key (f x) = x) ->
  NoDup keys -> In k keys ->
  filter (fun r => eqb (key r) k) (map f keys) = [f k].
Proof.
  intros Hk. induction 1 as [|x t Hx Ht IH]; intros Hin; [destruct Hin|].
  simpl. rewrite Hk.
  destruct Hin as [->|Hin].
  - rewrite eqb_refl. f_equal. apply filter_map_other; assumption.
  - destruct (eqb x k) eqn:E.
    + apply eqb_eq in E. subst x. contradiction.
    + apply IH. exact Hin.
Qed.

Lemma sum_of_sum (series : list cell) :
  sum_string_numbers [CStr (sum_string_numbers series)]
  = sum_string_numbers series.
Proof.
  rewrite (sum_string_numbers_value [_]). cbn [map Zsum fold_right].
  rewrite (sum_string_numbers_value series) at 1.
  rewrite contribution_formatted, Z.add_0_r.
  symmetry. apply sum_string_numbers_value.
Qed.

Lemma nth_map_seq (g : nat -> cell) (n j : nat) :
  (j < n)%nat -> nth j (map g (seq 0 n)) CNaN = g j.
Proof.
  intros Hj.
  rewrite (nth_indep _ CNaN (g 0%nat))
    by (rewrite length_map, length_seq; exact Hj).
  rewrite (map_nth g). rewrite seq_nth by exact Hj. reflexivity.
Qed.

(** X13: [_merge_duplicate_gu] is idempotent: a table that has been
    aggregated is left as it is, each sum being written in a form that
    is read back as the same integer. *)
Theorem merge_duplicate_gu_idempotent (ncols : nat) (df : list crime_row) :
  _merge_duplicate_gu ncols (_merge_duplicate_gu ncols df)
  = _merge_duplicate_gu ncols df.
Proof.
  set (row := fun key =>
         mk_crime_row (first_value (map station (group_of key df)))
           (map (fun j => CStr (sum_string_numbers (column j (group_of key df))))
                (seq 0 ncols))
           key).
  assert (M : _merge_duplicate_gu ncols df = map row (group_keys df))
    by reflexivity.
  assert (G : forall key, In key (group_keys df) ->
                group_of key (_merge_duplicate_gu ncols df) = [row key]).
  { intros key Hkey. rewrite M. unfold group_of.
    apply (filter_map_key gu row);
      [reflexivity | apply NoDup_group_keys | exact Hkey]. }
  rewrite M at 2. unfold _merge_duplicate_gu at 1.
  rewrite group_keys_fixed.
  apply map_ext_in. intros key Hkey. rewrite (G key Hkey).
  unfold row at 3. cbn [map first_value]. f_equal.
  apply map_ext_in. intros j Hj. apply in_seq in Hj.
  unfold column. cbn [map]. unfold row. cbn [counts].
  rewrite nth_map_seq by lia.
  rewrite sum_of_sum. reflexivity.
Qed.

(** X14: the rows [_merge_duplicate_gu] returns are in strictly
    increasing order of district, the order of the code points. *)
Theorem merge_duplicate_gu_sorted (ncols : nat) (df : list crime_row) :
  StronglySorted (fun a b => ltb a b = true)
    (map gu (_merge_duplicate_gu ncols df)).
Proof.
  rewrite merge_keys.
  pose proof (NoDup_group_keys df) as N.
  assert (A : ascending (group_keys df)) by apply sort_keys_ascending.
  induction A as [|x t Ht IH Hx]; constructor.
  - apply IH. inversion N; assumption.
  - inversion N as [|? ? Hnin _]; subst.
    rewrite Forall_forall in *. intros y Hy.
    apply leb_neq_ltb; [auto|]. intros ->. contradiction.
Qed.

Lemma Zsum_app (a b : list Z) : Zsum (a ++ b) = (Zsum a + Zsum b)%Z.
Proof. induction a as [|x a IH]; simpl; [reflexivity | rewrite IH; lia]. Qed.






End MergeOrder.

(** ** More on the reconciliation *)

Section ReconcileMore.

Import SeoulService.

Lemma filter_distinct (pop : list pop_row) (g : pystr) :
  NoDup (map p_gu pop) ->
  filter (fun p => eqb (p_gu p) g) pop
  = match find (fun p => eqb (p_gu p) g) pop with
    | Some p => [p]
    | None => []
    end.
Proof.
  induction pop as [|p t IH]; simpl; [reflexivity|].
  intros H. inversion H as [|? ? Hp Ht]; subst.
  destruct (eqb (p_gu p) g) eqn:E.
  - f_equal. apply eqb_eq in E. subst g. apply unmatched_filter.
    intros q Hq Eq. apply Hp. rewrite <- Eq. apply in_map. exact Hq.
  - apply IH. exact Ht.
Qed.

(** X17: when no two rows of the population table have the same name,
    the left join gives exactly one row for each row of the crime
    table, in the same order, with the population of the row of that
    name, or a missing population. *)
Theorem left_merge_distinct_names
  (crime_df : list crime_row) (pop_clean : list pop_row) :
  NoDup (map p_gu pop_clean) ->
  left_merge crime_df pop_clean
  = map (fun c => mk_merged_row c (population_of pop_clean (gu c))) crime_df.
Proof.
  intros H. unfold left_merge.
  induction crime_df as [|c t IH]; [reflexivity|].
  change (c :: t) with ([c] ++ t).
  rewrite flat_map_app, map_app, IH. f_equal.
  cbn [flat_map map]. rewrite app_nil_r. unfold population_of.
  rewrite (@filter_distinct pop_clean (gu c) H).
  destruct (find (fun p => eqb (p_gu p) (gu c)) pop_clean); reflexivity.
Qed.

Lemma left_merge_distinct_names_witness :
  left_merge Samples.crime_rows Samples.jongno_population_rows
  = map (fun c => mk_merged_row c
                    (population_of Samples.jongno_population_rows (gu c)))
        Samples.crime_rows.
Proof.
  apply left_merge_distinct_names.
  vm_compute. repeat constructor; simpl; intuition discriminate.
Defined.

(** *** The population of 종로구 *)

Lemma filter_app_empty {A} (f : A -> bool) (l : list A) (x : A) :
  filter f l = [] -> f x = true -> filter f (l ++ [x]) = [x].
Proof.
  intros H Hx. rewrite filter_app, H. simpl. rewrite Hx. reflexivity.
Qed.

Lemma mem_filter_names (pop : list pop_row) (g : pystr) :
  mem g (map p_gu pop) = false ->
  filter (fun r => eqb (p_gu r) g) pop = [].
Proof.
  intros H. apply unmatched_filter. intros p Hp E.
  apply mem_not_In in H. apply H. rewrite <- E. apply in_map. exact Hp.
Qed.

Lemma filter_set_population (pop : list pop_row) (g : pystr) (v : fl) :
  filter (fun r => eqb (p_gu r) g) (set_population g v pop)
  = map (fun r => mk_pop_row (p_gu r) v)
        (filter (fun r => eqb (p_gu r) g) pop).
Proof.
  unfold set_population.
  induction pop as [|p t IH]; [reflexivity|].
  cbn [map filter].
  destruct (eqb (p_gu p) g) eqn:E; cbn [p_gu]; rewrite E; cbn [map];
    rewrite IH; reflexivity.
Qed.

(** X18: after the correction of lines 224-239, when the crime table has
    the district 종로구, the population table has a row of that name,
    and the first one, which is the one the correction tests, holds
    162,820. *)
Theorem correct_jongno_sets_population
  (crime_gu_list : list pystr) (pop_clean : list pop_row) :
  mem jongno crime_gu_list = true ->
  exists r rest,
    filter (fun r => eqb (p_gu r) jongno)
      (correct_jongno crime_gu_list pop_clean) = r :: rest
    /\ fl_eq (p_pop r) jongno_population.
Proof.
  intros H. unfold correct_jongno. rewrite H.
  destruct (mem jongno (map p_gu pop_clean)) eqn:M; cbn [negb].
  - destruct (filter (fun r => eqb (p_gu r) jongno) pop_clean)
      as [|r rest] eqn:F.
    + exfalso. apply mem_In in M. apply in_map_iff in M as (p & E & Hp).
      assert (I : In p (filter (fun r => eqb (p_gu r) jongno) pop_clean)).
      { apply filter_In. split; [exact Hp|]. rewrite E. apply eqb_refl. }
      rewrite F in I. destruct I.
    + destruct (fl_neb (p_pop r) jongno_population) eqn:N.
      * rewrite filter_set_population, F. cbn [map].
        eexists _, _. split; [reflexivity|]. simpl. reflexivity.
      * exists r, rest. split; [exact F|].
        destruct (p_pop r) as [q|]; [|discriminate N].
        simpl in N. apply negb_false_iff in N.
        apply Qeq_bool_eq in N. exact N.
  - rewrite (@filter_app_empty _ _ pop_clean
               (mk_pop_row jongno jongno_population)
               (mem_filter_names _ _ M) (eqb_refl jongno)).
    eexists _, _. split; [reflexivity|]. simpl. reflexivity.
Qed.

Lemma correct_jongno_sets_population_witness :
  exists r rest,
    filter (fun r => eqb (p_gu r) jongno)
      (correct_jongno [u "중구"; u "종로구"] Samples.jongno_population_rows)
    = r :: rest
    /\ fl_eq (p_pop r) jongno_population.
Proof.
  apply (@correct_jongno_sets_population [u "중구"; u "종로구"]
           Samples.jongno_population_rows).
  vm_compute. reflexivity.
Defined.

(** *** No mapping for exact names *)

Lemma gu_mapping_step_skip (ps : list pystr) (acc : list (pystr * pystr))
  (c : pystr) :
  needs_mapping ps c = false -> gu_mapping_step ps acc c = acc.
Proof. intros H. unfold gu_mapping_step. rewrite H. reflexivity. Qed.

(** X19: when every district of the crime table is empty, 종로구 or a
    name of the population table, no mapping is built and the
    population table is left as it is. *)
Theorem exact_names_need_no_mapping
  (crime_gu_list pop_names : list pystr) (pop_clean : list pop_row) :
  (forall c, In c crime_gu_list -> c = [] \/ c = jongno \/ In c pop_names) ->
  build_gu_mapping crime_gu_list pop_names = []
  /\ apply_mapping (build_gu_mapping crime_gu_list pop_names) pop_clean
     = pop_clean.
Proof.
  intros H.
  assert (E : build_gu_mapping crime_gu_list pop_names = []).
  { unfold build_gu_mapping. generalize (@nil (pystr * pystr)) as acc.
    induction crime_gu_list as [|c t IH]; intros acc; [reflexivity|].
    cbn [fold_left]. rewrite gu_mapping_step_skip.
    - apply IH. intros c' Hc'. apply H. right; exact Hc'.
    - unfold needs_mapping.
      destruct (H c (or_introl eq_refl)) as [->|[->|Hin]].
      + reflexivity.
      + rewrite eqb_refl. simpl. reflexivity.
      + apply mem_In in Hin. rewrite Hin. apply andb_false_r. }
  rewrite E. split; reflexivity.
Qed.

Lemma exact_names_need_no_mapping_witness :
  build_gu_mapping [u "중구"; u "종로구"] [u "중구"] = []
  /\ apply_mapping (build_gu_mapping [u "중구"; u "종로구"] [u "중구"])
       Samples.jongno_population_rows
     = Samples.jongno_population_rows.
Proof.
  apply exact_names_need_no_mapping.
  intros c [<-|[<-|[]]].
  - right; right; left; reflexivity.
  - right; left; reflexivity.
Defined.

(** *** Names that differ in whitespace *)

Lemma lstrip_by_app (f : N -> bool) (a s : pystr) :
  Forall (fun c => f c = true) a -> lstrip_by f (a ++ s) = lstrip_by f s.
Proof.
  induction 1 as [|c a Hc _ IH]; simpl; [reflexivity|].
  rewrite Hc. exact IH.
Qed.

Lemma lstrip_by_suffix (f : N -> bool) (s : pystr) :
  exists a, s = a ++ lstrip_by f s /\ Forall (fun c => f c = true) a.
Proof.
  induction s as [|c s IH]; simpl.
  - exists []. split; [reflexivity | constructor].
  - destruct (f c) eqn:E.
    + destruct IH as (a & Ea & Fa). exists (c :: a). split.
      * simpl. rewrite <- Ea. reflexivity.
      * constructor; assumption.
    + exists []. split; [reflexivity | constructor].
Qed.

Lemma lstrip_by_nonempty_app (f : N -> bool) (s b : pystr) :
  lstrip_by f s <> [] -> lstrip_by f (s ++ b) = lstrip_by f s ++ b.
Proof.
  induction s as [|c s IH]; simpl; [congruence|].
  destruct (f c); [exact IH | reflexivity].
Qed.

Lemma lstrip_by_all (f : N -> bool) (s : pystr) :
  Forall (fun c => f c = true) s -> lstrip_by f s = [].
Proof.
  induction 1 as [|c s Hc _ IH]; simpl; [reflexivity|].
  rewrite Hc. exact IH.
Qed.

Lemma strip_by_padded (f : N -> bool) (a s b : pystr) :
  Forall (fun c => f c = true) a ->
  Forall (fun c => f c = true) b ->
  strip_by f (a ++ s ++ b) = strip_by f s.
Proof.
  intros Ha Hb. unfold strip_by. rewrite (@lstrip_by_app f a (s ++ b) Ha).
  f_equal.
  destruct (lstrip_by f s) as [|c r] eqn:E.
  - (* everything of [s] is stripped *)
    destruct (lstrip_by_suffix f s) as (a' & Ea' & Fa').
    rewrite E, app_nil_r in Ea'. subst a'.
    assert (All : Forall (fun c => f c = true) (s ++ b))
      by (apply Forall_app; split; assumption).
    rewrite (@lstrip_by_all f (s ++ b) All). reflexivity.
  - rewrite lstrip_by_nonempty_app by (rewrite E; discriminate).
    rewrite E, rev_app_distr.
    apply lstrip_by_app. apply Forall_rev. exact Hb.
Qed.

(** X20: [normalize_gu_name] does not see the whitespace around a name:
    two cells that differ only in leading and trailing whitespace are
    given the same name. *)
Theorem normalize_gu_name_ignores_padding (a s b : pystr) :
  Forall (fun c => isspace c = true) a ->
  Forall (fun c => isspace c = true) b ->
  normalize_gu_name (Some (a ++ s ++ b)) = normalize_gu_name (Some s).
Proof.
  intros Ha Hb. unfold normalize_gu_name, strip.
  rewrite (@strip_by_padded isspace a s b Ha Hb). reflexivity.
Qed.

Lemma normalize_gu_name_ignores_padding_witness :
  normalize_gu_name (Some (u "  " ++ u "'종로구'" ++ u " "))
  = normalize_gu_name (Some (u "'종로구'")).
Proof.
  apply normalize_gu_name_ignores_padding;
    repeat constructor.
Defined.

End ReconcileMore.

(** ** More on the normalisation *)

Section RatesMore.

Import SeoulService.

Local Open Scope Q_scope.









(** *** The order of the values *)

Lemma rint_bounds (q : Q) :
  (Qfloor q <= rint q <= Qfloor q + 1)%Z.
Proof.
  unfold rint. destruct (Qcompare _ _); [destruct (Z.even _)| |]; lia.
Qed.

Lemma rint_monotone (a b : Q) : a <= b -> (rint a <= rint b)%Z.
Proof.
  intros H. pose proof (Qfloor_resp_le _ _ H) as F.
  pose proof (rint_bounds a) as Ba. pose proof (rint_bounds b) as Bb.
  destruct (Z.eq_dec (Qfloor a) (Qfloor b)) as [E|N]; [|lia].
  unfold rint. rewrite <- E.
  assert (D : a - inject_Z (Qfloor a) <= b - inject_Z (Qfloor a)).
  { apply Qplus_le_l with (z := inject_Z (Qfloor a)). ring_simplify. exact H. }
  destruct (Qcompare_spec (a - inject_Z (Qfloor a)) (1 # 2)) as [Ea|La|Ga];
    destruct (Qcompare_spec (b - inject_Z (Qfloor a)) (1 # 2)) as [Eb|Lb|Gb];
    try (destruct (Z.even (Qfloor a))); try lia; exfalso;
    apply (Qlt_irrefl (1 # 2));
    first [ rewrite Ea in D; eapply Qle_lt_trans; eassumption
          | rewrite Eb in D; eapply Qlt_le_trans; eassumption
          | eapply Qlt_trans; [exact Ga|];
            eapply Qle_lt_trans; eassumption ].
Qed.

Lemma fl_round_monotone (d : nat) (x y : Q) :
  x <= y -> fl_le (fl_round d (Fin x)) (fl_round d (Fin y)).
Proof.
  intros H. simpl. unfold Qle. simpl.
  apply Z.mul_le_mono_nonneg_r; [lia|].
  apply rint_monotone. apply Qmult_le_compat_r; [exact H|]. discriminate.
Qed.

Lemma clamp_monotone (x y : Q) :
  x <= y -> fl_le (clamp (Fin x)) (clamp (Fin y)).
Proof.
  intros H. unfold clamp. simpl fl_ltb.
  destruct (Qltb x 0) eqn:X0; destruct (Qltb y 0) eqn:Y0; simpl fl_gtb;
    try apply Qltb_lt in X0; try apply Qltb_ge in X0;
    try apply Qltb_lt in Y0; try apply Qltb_ge in Y0.
  - simpl. apply Qle_refl.
  - destruct (Qltb 1 y) eqn:Y1; simpl; [discriminate | exact Y0].
  - exfalso. apply (Qlt_irrefl 0).
    eapply Qle_lt_trans; [exact X0|]. eapply Qle_lt_trans; eassumption.
  - destruct (Qltb 1 x) eqn:X1; destruct (Qltb 1 y) eqn:Y1; simpl;
      try apply Qltb_lt in X1; try apply Qltb_ge in X1;
      try apply Qltb_lt in Y1; try apply Qltb_ge in Y1.
    + apply Qle_refl.
    + exfalso. apply (Qlt_irrefl 1).
      eapply Qlt_le_trans; [exact X1|]. eapply Qle_trans; eassumption.
    + exact X1.
    + exact H.
Qed.

Lemma clamp_negative_value (x : Q) :
  (if fl_ltb (Fin x) (Fin 0) then Fin 0 else Fin x)
  = Fin (if Qltb x 0 then 0 else x).
Proof. simpl. destruct (Qltb x 0); reflexivity. Qed.

Lemma clamp_zero_monotone (x y : Q) :
  x <= y -> (if Qltb x 0 then 0 else x) <= (if Qltb y 0 then 0 else y).
Proof.
  intros H.
  destruct (Qltb x 0) eqn:X0; destruct (Qltb y 0) eqn:Y0;
    try apply Qltb_lt in X0; try apply Qltb_ge in X0;
    try apply Qltb_lt in Y0; try apply Qltb_ge in Y0.
  - apply Qle_refl.
  - exact Y0.
  - exfalso. apply (Qlt_irrefl 0).
    eapply Qle_lt_trans; [exact X0|]. eapply Qle_lt_trans; eassumption.
  - exact H.
Qed.

(** X23: the normalisation step applies one function to every value of
    the column, and that function preserves the order of numbers: a
    district with a larger rate never gets a smaller normalised rate. *)
Theorem normalize_column_preserves_order (col : list fl) :
  exists h : fl -> fl,
    normalize_column col = map h col
    /\ forall x y, x <= y -> fl_le (h (Fin x)) (h (Fin y)).
Proof.
  destruct (normalize_column_branches col) as [Hpos Hzero].
  destruct (fl_gtb (column_max (clamp_negative col)) (Fin 0)) eqn:G.
  - destruct (fl_gtb_pos _ G) as (m & Em & Hm). rewrite Em in *.
    exists (fun v => clamp (fl_round 4
                     (fl_div (if fl_ltb v (Fin 0) then Fin 0 else v) (Fin m)))).
    split.
    + rewrite (Hpos eq_refl). unfold clamp_negative. rewrite map_map.
      reflexivity.
    + intros x y H. rewrite !clamp_negative_value, !(fl_div_pos _ Hm).
      pose proof (clamp_zero_monotone H) as C.
      assert (D : (if Qltb x 0 then 0 else x) / m
                  <= (if Qltb y 0 then 0 else y) / m).
      { apply Qmult_le_compat_r; [exact C|].
        apply Qlt_le_weak. apply Qinv_lt_0_compat. exact Hm. }
      pose proof (fl_round_monotone 4 D) as R.
      simpl fl_round in *. simpl in R.
      apply clamp_monotone. exact R.
  - exists (fun _ => Fin 0). split; [exact (Hzero eq_refl)|].
    intros x y _. simpl. apply Qle_refl.
Qed.

End RatesMore.

(** ** The crime table and its districts *)

Section CrimeDistricts.

Import KakaoMapSingleton SeoulMethod SeoulService.

Lemma lookup_stations_empty (kmaps : instance) (http : pystr -> http_result)
  (names : list pystr) :
  (forall q, geocode kmaps http q = Return []) ->
  lookup_stations kmaps http names
  = (Return (map (fun _ => no_result) names), names).
Proof.
  intros H. induction names as [|name rest IH]; [reflexivity|].
  cbn [lookup_stations]. unfold lookup_station at 1. rewrite H.
  cbn [bind_outcome]. rewrite IH. reflexivity.
Qed.

Lemma gu_names_empty (names : list pystr) :
  map_outcome gu_of_address
    (map (fun r => fst (fst r)) (map (fun _ : pystr => no_result) names))
  = Return (map (fun _ => []) names).
Proof.
  induction names as [|n t IH]; [reflexivity|].
  cbn [map map_outcome]. cbn [map] in IH. rewrite IH. reflexivity.
Qed.

Lemma filter_none {A} (f : A -> bool) (l : list A) :
  (forall x, In x l -> f x = false) -> filter f l = [].
Proof.
  induction l as [|x t IH]; intros H; simpl; [reflexivity|].
  rewrite (H x (or_introl eq_refl)). apply IH.
  intros y Hy. apply H. right; exact Hy.
Qed.

Lemma unique_constant (g : pystr) (l : list pystr) :
  (forall x, In x l -> x = g) -> (length (unique l) <= 1)%nat.
Proof.
  intros H. destruct l as [|x t]; simpl; [lia|].
  assert (E : filter (fun y => negb (eqb x y)) (unique t) = []).
  { apply filter_none. intros y Hy. apply (proj1 (In_unique y t)) in Hy.
    rewrite (H x (or_introl eq_refl)), (H y (or_intror Hy)), eqb_refl.
    reflexivity. }
  rewrite E. simpl. lia.
Qed.

Lemma merge_constant_length (ncols : nat) (df : list crime_row) (g : pystr) :
  (forall r, In r df -> gu r = g) ->
  (length (_merge_duplicate_gu ncols df) <= 1)%nat.
Proof.
  intros H. unfold _merge_duplicate_gu, group_keys.
  rewrite length_map, (Permutation_length (sort_keys_perm _)).
  apply (@unique_constant g). intros x Hx.
  apply in_map_iff in Hx as (r & <- & Hr). exact (H r Hr).
Qed.

Lemma combine_map_fst {A B C} (f : A -> C) (g : A -> B) (l : list A) :
  combine (map f l) (map g l) = map (fun x => (f x, g x)) l.
Proof. induction l as [|x t IH]; simpl; [reflexivity | rewrite IH; reflexivity]. Qed.

(** X24: when the geocoder finds no document for any station, which is
    also what a 403 answer with a JSON body comes to, [preprocess]
    goes on with the empty string as the district of every station,
    and the aggregation puts the whole crime table into one row. *)
Theorem stations_without_result_collapse
  (ncols : nat) (kmaps : instance) (http : pystr -> http_result)
  (rows : list (pystr * list cell)) :
  (forall q, geocode kmaps http q = Return []) ->
  let crime_csv := map (fun r => (Some (fst r), snd r)) rows in
  let df := map (fun r => mk_crime_row (Some (fst r)) (snd r) []) rows in
  fst (crime_by_district ncols kmaps http (Some crime_csv))
  = Return (_merge_duplicate_gu ncols df)
  /\ (length (_merge_duplicate_gu ncols df) <= 1)%nat.
Proof.
  intros H crime_csv df. split.
  - unfold crime_by_district, station_districts, crime_csv.
    rewrite map_map. cbn [fst].
    rewrite <- (map_map fst Some), station_names_strings.
    rewrite (@lookup_stations_empty kmaps http _ H). cbn [bind_outcome].
    rewrite gu_names_empty. cbn [fst bind_outcome]. do 2 f_equal.
    unfold df. clear.
    induction rows as [|r t IH]; [reflexivity|].
    cbn [map combine fst snd]. f_equal. exact IH.
  - apply (@merge_constant_length ncols df []).
    intros r Hr. unfold df in Hr. apply in_map_iff in Hr as (x & <- & _).
    reflexivity.
Qed.

Lemma stations_without_result_collapse_witness :
  let http := fun _ : pystr => Response 403 (Some (JDict [])) in
  let kmaps := mk_instance 0 (Some (u "key")) (Some base_url) in
  let rows := [(u "중부서", [CStr (u "2")]); (u "수서서", [CStr (u "1,200")])] in
  fst (crime_by_district 1 kmaps http
         (Some (map (fun r => (Some (fst r), snd r)) rows)))
  = Return (_merge_duplicate_gu 1
              (map (fun r => mk_crime_row (Some (fst r)) (snd r) []) rows))
  /\ (length (_merge_duplicate_gu 1
                (map (fun r => mk_crime_row (Some (fst r)) (snd r) []) rows))
      <= 1)%nat.
Proof.
  intros http kmaps rows.
  apply (@stations_without_result_collapse 1 kmaps http rows).
  intros q. reflexivity.
Defined.

(** *** [add_district_to_crime] *)

Lemma station_to_district_returns (self : method) (s : pystr)
  (valid : list (option pystr)) :
  cctv_csv self = Some valid ->
  exists g, fst (station_to_district self s) = Return g.
Proof.
  intros H. unfold station_to_district. rewrite H.
  destruct (_get_district_from_kakao_maps self s) as [d calls].
  destruct (endswith [ch_seo] s); [|simpl; eauto].
  destruct (in_column _ valid); simpl; eauto.
Qed.

Lemma station_to_district_calls (self : method) (s : pystr) :
  snd (station_to_district self s) = []
  \/ snd (station_to_district self s) = [s ++ u " 서울"].
Proof.
  unfold station_to_district.
  destruct (endswith [ch_seo] s); [|right; reflexivity].
  destruct (cctv_csv self) as [valid|]; [|left; reflexivity].
  destruct (in_column _ valid); [left | right]; reflexivity.
Qed.

Lemma district_loop_strings (self : method) (names : list pystr)
  (valid : list (option pystr)) :
  cctv_csv self = Some valid ->
  exists gu_names,
    fst (district_loop self (map Some names)) = Return gu_names
    /\ Forall2 (fun s g => fst (station_to_district self s) = Return g)
         names gu_names
    /\ snd (district_loop self (map Some names))
       = concat (map (fun s => snd (station_to_district self s)) names).
Proof.
  intros H. induction names as [|s t IH].
  - exists []. repeat split. constructor.
  - destruct IH as (gs & E & F & C).
    destruct (station_to_district_returns self s H) as (g & G).
    cbn [map district_loop concat].
    destruct (station_to_district self s) as [r calls] eqn:S.
    cbn [fst snd] in *. subst r.
    destruct (district_loop self (map Some t)) as [r' calls'].
    cbn [fst snd] in *. subst r' calls'.
    exists (g :: gs). split; [reflexivity|].
    split; [constructor; [rewrite S; reflexivity | exact F] | reflexivity].
Qed.

(** X25: when [cctv.csv] exists and every 관서명 is a string,
    [add_district_to_crime] raises nothing, whatever the geocoder does:
    it returns the rows of [crime.csv] in order, each with the district
    [station_to_district] gives for its station, and calls the geocoder
    at most once for each row, with the name of the station followed by
    서울. *)
Theorem add_district_to_crime_keeps_rows
  (self : method) (rows : list (pystr * list cell))
  (valid : list (option pystr)) :
  cctv_csv self = Some valid ->
  let crime_csv := map (fun r => (Some (fst r), snd r)) rows in
  exists df,
    fst (add_district_to_crime self (Some crime_csv)) = Return df
    /\ map station df = map (fun r => Some (fst r)) rows
    /\ map counts df = map snd rows
    /\ Forall2 (fun r row =>
                  fst (station_to_district self (fst r)) = Return (gu row))
         rows df
    /\ (length (snd (add_district_to_crime self (Some crime_csv)))
        <= length rows)%nat
    /\ Forall (fun q => exists r, In r rows /\ q = fst r ++ u " 서울")
         (snd (add_district_to_crime self (Some crime_csv))).
Proof.
  intros H crime_csv.
  destruct (district_loop_strings self (map fst rows) H) as (gs & E & F & C).
  unfold add_district_to_crime, crime_csv.
  rewrite map_map. cbn [fst]. rewrite <- (map_map fst Some).
  destruct (district_loop self (map Some (map fst rows))) as [r calls].
  cbn [fst snd] in *. subst r calls. cbn [bind_outcome].
  eexists. split; [reflexivity|].
  assert (Len : length gs = length rows).
  { apply Forall2_length in F. rewrite length_map in F. auto. }
  split; [|split; [|split; [|split]]].
  - revert gs F Len. induction rows as [|r t IH]; intros [|g gs] F Len;
      try discriminate; [reflexivity|].
    cbn [map combine station fst snd]. f_equal.
    apply IH; [inversion F; assumption | simpl in Len; lia].
  - revert gs F Len. induction rows as [|r t IH]; intros [|g gs] F Len;
      try discriminate; [reflexivity|].
    cbn [map combine counts fst snd]. f_equal.
    apply IH; [inversion F; assumption | simpl in Len; lia].
  - revert gs F Len. induction rows as [|r t IH]; intros [|g gs] F Len;
      try discriminate; [constructor|].
    cbn [map combine]. inversion F; subst. constructor.
    + cbn [gu snd fst]. assumption.
    + apply IH; [assumption | simpl in Len; lia].
  - clear. induction rows as [|r t IH]; simpl; [lia|].
    rewrite length_app.
    destruct (station_to_district_calls self (fst r)) as [-> | ->];
      simpl; lia.
  - clear. apply Forall_forall. intros q Hq.
    apply in_concat in Hq as (l & Hl & Hq).
    rewrite map_map in Hl. apply in_map_iff in Hl as (r & <- & Hr).
    exists r. split; [exact Hr|].
    destruct (station_to_district_calls self (fst r)) as [E | E];
      rewrite E in Hq; [destruct Hq|].
    destruct Hq as [<-|[]]. reflexivity.
Qed.

Lemma add_district_to_crime_keeps_rows_witness :
  exists df,
    fst (add_district_to_crime bangbae_method
           (Some (map (fun r => (Some (fst r), snd r))
                    [(u "강남서", [CStr (u "3")]); (u "방배서", [CStr (u "5")])])))
    = Return df
    /\ map station df
       = map (fun r => Some (fst r))
           [(u "강남서", [CStr (u "3")]); (u "방배서", [CStr (u "5")])]
    /\ map counts df
       = map snd [(u "강남서", [CStr (u "3")]); (u "방배서", [CStr (u "5")])]
    /\ Forall2 (fun r row =>
                  fst (station_to_district bangbae_method (fst r))
                  = Return (gu row))
         [(u "강남서", [CStr (u "3")]); (u "방배서", [CStr (u "5")])] df
    /\ (length (snd (add_district_to_crime bangbae_method
                       (Some (map (fun r => (Some (fst r), snd r))
                                [(u "강남서", [CStr (u "3")]);
                                 (u "방배서", [CStr (u "5")])]))))
        <= length [(u "강남서", [CStr (u "3")]); (u "방배서", [CStr (u "5")])])%nat
    /\ Forall (fun q => exists r,
                 In r [(u "강남서", [CStr (u "3")]); (u "방배서", [CStr (u "5")])]
                 /\ q = fst r ++ u " 서울")
         (snd (add_district_to_crime bangbae_method
                 (Some (map (fun r => (Some (fst r), snd r))
                          [(u "강남서", [CStr (u "3")]);
                           (u "방배서", [CStr (u "5")])])))).
Proof.
  apply (@add_district_to_crime_keeps_rows bangbae_method
           [(u "강남서", [CStr (u "3")]); (u "방배서", [CStr (u "5")])]
           [Some (u "강남구")]).
  reflexivity.
Defined.

End CrimeDistricts.

(** ** The centroid of a district *)

Section Centroid.

Import SeoulService.

Local Open Scope Q_scope.












Lemma flatten_rings (rings : list (list (Q * Q))) :
  Forall (fun r => r <> []) rings ->
  flatten_groups (map linear_ring rings) = inl (map position (concat rings)).
Proof.
  induction 1 as [|r t Hr _ IH]; [reflexivity|].
  cbn [map flatten_groups]. rewrite IH.
  destruct r as [|p r]; [congruence|].
  cbn [linear_ring map subscript nth_error bind_centroid position is_list elements
       concat].
  rewrite map_app. reflexivity.
Qed.

(** X27: on the coordinates of a polygon, a list of rings, the branch
    for nested coordinates takes the positions of every ring, holes
    included: the result is that of the one ring made of all the
    positions. *)
Theorem calculate_centroid_flattens_rings
  (p : Q * Q) (points : list (Q * Q)) (rings : list (list (Q * Q))) :
  Forall (fun r => r <> []) rings ->
  calculate_centroid (JList (map linear_ring ((p :: points) :: rings)))
  = calculate_centroid (linear_ring (concat ((p :: points) :: rings))).
Proof.
  intros H. unfold calculate_centroid.
  assert (F : flatten_groups (map linear_ring ((p :: points) :: rings))
              = inl (map position (concat ((p :: points) :: rings)))).
  { apply flatten_rings. constructor; [discriminate | exact H]. }
  cbn [concat app] in *. unfold linear_ring at 3.
  cbn [map subscript nth_error bind_centroid linear_ring position is_list elements]
    in *.
  rewrite F. reflexivity.
Qed.

Lemma calculate_centroid_flattens_rings_witness :
  calculate_centroid
    (JList (map linear_ring ([(0, 0); (4 # 1, 0)] :: [[(1, 1)]])))
  = calculate_centroid (linear_ring (concat ([(0, 0); (4 # 1, 0)] :: [[(1, 1)]]))).
Proof.
  apply calculate_centroid_flattens_rings.
  repeat constructor; discriminate.
Defined.

End Centroid.

(** ** The total crime rate of the map *)

Section TotalRate.

Import SeoulService.

Local Open Scope Q_scope.




End TotalRate.
